(** * Cursor updater: version discovery, comparison policy and the update pipeline

    A shallow embedding of [cursor_updater.py] and [version_check.py].

    Text is modelled as [string]: a Python [str] stands as the bytes of its
    UTF-8 encoding, so that an ASCII character is one character of the
    model.  The string methods the program uses are modelled on all text.
    The character classes of [re] are modelled on ASCII characters only
    (beyond them [re] follows the Unicode database), and what is proved of
    the version pattern is stated for ASCII text, which URLs are.
    External effects (subprocesses, the network, the terminal, the file
    system) are modelled by an explicit state and an oracle for the
    outcome of each external interaction.  Logging, the text of the
    progress bar and the interruption of a run from the keyboard are not
    modelled. *)

From Stdlib Require Import String Ascii List Bool Arith NArith Lia Sorted.
Import ListNotations.
Local Open Scope string_scope.
Local Open Scope list_scope.
Local Open Scope nat_scope.

(* ===================================================================== *)
(** ** Python string primitives used by the program *)
(* ===================================================================== *)

Module PyStr.

(** [str.startswith] *)
Fixpoint startswith (p s : string) : bool :=
  match p, s with
  | EmptyString, _ => true
  | String a p', String b s' => if Ascii.eqb a b then startswith p' s' else false
  | String _ _, EmptyString => false
  end.

(** [s.split(sep, 1)[1]] for a one-character separator: the text after the
    first occurrence of [sep]; [None] stands for the IndexError raised when
    [sep] does not occur. *)
Fixpoint after_first (sep : ascii) (s : string) : option string :=
  match s with
  | EmptyString => None
  | String c s' => if Ascii.eqb c sep then Some s' else after_first sep s'
  end.

(** [str.isascii] *)
Fixpoint isascii (s : string) : bool :=
  match s with
  | EmptyString => true
  | String c s' => (nat_of_ascii c <? 128) && isascii s'
  end.

(** The white space of [str.isspace] and [str.strip].  Among the ASCII
    characters: tab, LF, VT, FF, CR, FS, GS, RS, US and the space. *)
Definition isspace (c : ascii) : bool :=
  let n := nat_of_ascii c in
  ((9 <=? n) && (n <=? 13)) || ((28 <=? n) && (n <=? 32)).

(** Beyond ASCII, by the bytes of the character: U+0085 and U+00A0 (two
    bytes); U+1680, U+2000 to U+200A, U+2028, U+2029, U+202F, U+205F and
    U+3000 (three bytes). *)
Definition isspace2 (a b : ascii) : bool :=
  (nat_of_ascii a =? 194) && ((nat_of_ascii b =? 133) || (nat_of_ascii b =? 160)).

Definition isspace3 (a b c : ascii) : bool :=
  let x := nat_of_ascii a in
  let y := nat_of_ascii b in
  let z := nat_of_ascii c in
  ((x =? 225) && (y =? 154) && (z =? 128))
  || ((x =? 226) && (y =? 128)
      && (((128 <=? z) && (z <=? 138)) || (z =? 168) || (z =? 169) || (z =? 175)))
  || ((x =? 226) && (y =? 129) && (z =? 159))
  || ((x =? 227) && (y =? 128) && (z =? 128)).

(** Drops leading white space, one character (of one, two or three bytes)
    at a time. *)
Fixpoint lstrip (s : string) : string :=
  match s with
  | EmptyString => EmptyString
  | String a s1 =>
      if isspace a then lstrip s1 else
      match s1 with
      | EmptyString => s
      | String b s2 =>
          if isspace2 a b then lstrip s2 else
          match s2 with
          | EmptyString => s
          | String c s3 => if isspace3 a b c then lstrip s3 else s
          end
      end
  end.

(** The same from the end of the text, on its bytes in reverse order. *)
Fixpoint lstrip_rev (l : list ascii) : list ascii :=
  match l with
  | [] => []
  | c :: l1 =>
      if isspace c then lstrip_rev l1 else
      match l1 with
      | [] => l
      | b :: l2 =>
          if isspace2 b c then lstrip_rev l2 else
          match l2 with
          | [] => l
          | a :: l3 => if isspace3 a b c then lstrip_rev l3 else l
          end
      end
  end.

Definition rstrip (s : string) : string :=
  string_of_list_ascii (rev (lstrip_rev (rev (list_ascii_of_string s)))).

(** [str.strip()] *)
Definition strip (s : string) : string := rstrip (lstrip s).

(** Line boundaries of [str.splitlines].  Among the ASCII characters:
    LF, VT, FF, CR, FS, GS, RS (CR LF counts as one boundary). *)
Definition is_linebreak (c : ascii) : bool :=
  let n := nat_of_ascii c in
  ((10 <=? n) && (n <=? 13)) || ((28 <=? n) && (n <=? 30)).

(** Beyond ASCII, by the bytes of the character: U+0085 (two bytes),
    U+2028 and U+2029 (three bytes). *)
Definition is_linebreak2 (a b : ascii) : bool :=
  (nat_of_ascii a =? 194) && (nat_of_ascii b =? 133).

Definition is_linebreak3 (a b c : ascii) : bool :=
  (nat_of_ascii a =? 226) && (nat_of_ascii b =? 128)
  && ((nat_of_ascii c =? 168) || (nat_of_ascii c =? 169)).

Definition CR : ascii := ascii_of_nat 13.
Definition LF : ascii := ascii_of_nat 10.

(** [str.splitlines()]: [cur] is the current line, reversed.  A final line
    is produced only when it is not empty. *)
Fixpoint splitlines_from (cur : list ascii) (s : string) : list string :=
  match s with
  | EmptyString =>
      match cur with
      | [] => []
      | _ => [string_of_list_ascii (rev cur)]
      end
  | String c s' =>
      if Ascii.eqb c CR then
        match s' with
        | String d s'' =>
            if Ascii.eqb d LF
            then string_of_list_ascii (rev cur) :: splitlines_from [] s''
            else string_of_list_ascii (rev cur) :: splitlines_from [] s'
        | EmptyString => string_of_list_ascii (rev cur) :: splitlines_from [] s'
        end
      else if is_linebreak c then
        string_of_list_ascii (rev cur) :: splitlines_from [] s'
      else
        match s' with
        | String d s2 =>
            if is_linebreak2 c d then
              string_of_list_ascii (rev cur) :: splitlines_from [] s2
            else
              match s2 with
              | String e s3 =>
                  if is_linebreak3 c d e
                  then string_of_list_ascii (rev cur) :: splitlines_from [] s3
                  else splitlines_from (c :: cur) s'
              | EmptyString => splitlines_from (c :: cur) s'
              end
        | EmptyString => splitlines_from (c :: cur) s'
        end
  end.

Definition splitlines (s : string) : list string := splitlines_from [] s.

(** [str.lower()]: the ASCII letters are lowered and the other bytes kept.
    The program compares the result with ["y"] only, and [Y] is the only
    other character that [str.lower] takes to [y]. *)
Definition lower_char (c : ascii) : ascii :=
  let n := nat_of_ascii c in
  if (65 <=? n) && (n <=? 90) then ascii_of_nat (n + 32) else c.

Fixpoint lower (s : string) : string :=
  match s with
  | EmptyString => EmptyString
  | String c s' => String (lower_char c) (lower s')
  end.

(** Truth value of an [Optional[str]]: [None] and the empty string are
    false. *)
Definition truthy (v : option string) : bool :=
  match v with
  | Some (String _ _) => true
  | _ => false
  end.

End PyStr.

(* ===================================================================== *)
(** ** A backtracking matcher for the regular expressions of the program *)
(* ===================================================================== *)

Module Re.

(** The constructs that occur in [r"\b(\d+\.\d+\.\d+)\b"]. *)
Inductive regex : Type :=
| Class (p : ascii -> bool)        (* one character of a class *)
| Plus (p : ascii -> bool)         (* greedy [c+] over a class *)
| Boundary                         (* [\b] *)
| Seq (r1 r2 : regex)
| Group (r : regex).               (* the capturing group *)

(** [\d] and [\w] on ASCII characters.  For a [str] pattern [re] takes
    these classes from the Unicode database, which is not part of the
    model: a byte of a character beyond ASCII counts here as neither, and
    the statements that depend on the classes are made for ASCII text. *)
Definition is_digit (c : ascii) : bool :=
  let n := nat_of_ascii c in (48 <=? n) && (n <=? 57).

Definition is_word (c : ascii) : bool :=
  let n := nat_of_ascii c in
  ((48 <=? n) && (n <=? 57)) || ((65 <=? n) && (n <=? 90))
  || ((97 <=? n) && (n <=? 122)) || (n =? 95).

Definition is_dot (c : ascii) : bool := Ascii.eqb c ".".

(** A position of the matcher: the character before it (if any), its index,
    the text that remains, and the span of the group once it is closed. *)
Record cursor : Type := mkCursor {
  prev : option ascii;
  pos : nat;
  rest : string;
  grp : option (nat * nat)
}.

Definition word_before (c : cursor) : bool :=
  match prev c with Some a => is_word a | None => false end.

Definition word_after (c : cursor) : bool :=
  match rest c with String a _ => is_word a | EmptyString => false end.

(** [\b] holds where exactly one side is a word character. *)
Definition at_boundary (c : cursor) : bool := xorb (word_before c) (word_after c).

Section Matcher.
Variable R : Type.

  (** Greedy repetition: take one more character when possible, and fall
      back to stopping here when the continuation fails further on. *)
Fixpoint star (p : ascii -> bool) (pv : option ascii) (n : nat) (s : string)
      (g : option (nat * nat)) (k : cursor -> option R) : option R :=
    match s with
    | String a s' =>
        if p a then
          match star p (Some a) (S n) s' g k with
          | Some r => Some r
          | None => k (mkCursor pv n s g)
          end
        else k (mkCursor pv n s g)
    | EmptyString => k (mkCursor pv n s g)
    end.

Fixpoint run (r : regex) (c : cursor) (k : cursor -> option R) : option R :=
    match r with
    | Class p =>
        match rest c with
        | String a s' => if p a then k (mkCursor (Some a) (S (pos c)) s' (grp c)) else None
        | EmptyString => None
        end
    | Plus p =>
        match rest c with
        | String a s' => if p a then star p (Some a) (S (pos c)) s' (grp c) k else None
        | EmptyString => None
        end
    | Boundary => if at_boundary c then k c else None
    | Seq r1 r2 => run r1 c (fun c' => run r2 c' k)
    | Group r1 =>
        run r1 c (fun c' => k (mkCursor (prev c') (pos c') (rest c') (Some (pos c, pos c'))))
    end.
End Matcher.

Arguments star {R}.
Arguments run {R}.

(** One attempt at a given start. *)
Definition match_here (r : regex) (c : cursor) : option cursor :=
  run r c (fun c' => Some c').

(** [re.search]: the first start, from left to right, at which an attempt
    succeeds.  The empty suffix is tried as well. *)
Fixpoint search_from (r : regex) (pv : option ascii) (n : nat) (s : string)
    : option cursor :=
  match match_here r (mkCursor pv n s None) with
  | Some c => Some c
  | None =>
      match s with
      | String a s' => search_from r (Some a) (S n) s'
      | EmptyString => None
      end
  end.

Definition search (r : regex) (s : string) : option cursor :=
  search_from r None 0 s.

(** [m.group(1)] in the searched text [s]. *)
Definition group1 (s : string) (m : cursor) : string :=
  match grp m with
  | Some (i, j) => substring i (j - i) s
  | None => EmptyString
  end.

End Re.

(* ===================================================================== *)
(** ** Release Resolver: the version of a download location *)
(* ===================================================================== *)

(** [r"\b(\d+\.\d+\.\d+)\b"] *)
Definition VERSION_RE : Re.regex :=
  Re.Seq Re.Boundary
    (Re.Seq
       (Re.Group
          (Re.Seq (Re.Plus Re.is_digit)
             (Re.Seq (Re.Class Re.is_dot)
                (Re.Seq (Re.Plus Re.is_digit)
                   (Re.Seq (Re.Class Re.is_dot) (Re.Plus Re.is_digit))))))
       Re.Boundary).

(** [extract_version] (the same function in both source files). *)
Definition extract_version (url : string) : string :=
  match Re.search VERSION_RE url with
  | Some m => Re.group1 url m
  | None => "Unknown"
  end.

(* ===================================================================== *)
(** ** Version Comparator: the interface of [packaging.version] *)
(* ===================================================================== *)

(** The program compares versions with [packaging.version], an external
    library.  It is taken as a parameter: a parser that may fail
    ([None] stands for [InvalidVersion]) and the three-way comparison of the
    sort keys of two parsed versions, from which [>=] and [>] derive. *)
Class PackagingVersion : Type := {
  Version : Type;
  version_parse : string -> option Version;
  version_cmp : Version -> Version -> comparison
}.

Definition version_ge `{PackagingVersion} (a b : Version) : bool :=
  match version_cmp a b with Lt => false | _ => true end.

Definition version_gt `{PackagingVersion} (a b : Version) : bool :=
  match version_cmp a b with Gt => true | _ => false end.

(** The law of a total order that relates the two directions of a
    comparison. *)
Definition cmp_antisym `{PackagingVersion} : Prop :=
  forall a b : Version, version_cmp a b = CompOpp (version_cmp b a).

Section Comparator.
Context `{PackagingVersion}.

  (** Step 3 of [main]: whether the run stops at ["Already up to date"].
      The first parse that fails sends control to the [except] branch. *)
Definition already_up_to_date (installed_version : option string)
      (latest_version : string) (force : bool) : bool :=
    match installed_version with
    | Some installed =>
        if PyStr.truthy installed_version && negb (latest_version =? "Unknown")%string then
          match version_parse installed with
          | Some vi =>
              match version_parse latest_version with
              | Some vl => version_ge vi vl && negb force
              | None => (installed =? latest_version)%string && negb force
              end
          | None => (installed =? latest_version)%string && negb force
          end
        else false
    | None => false
    end.

  (** The decision of the comparator: the run goes on past step 3. *)
Definition update_needed (installed_version : option string)
      (latest_version : string) (force : bool) : bool :=
    negb (already_up_to_date installed_version latest_version force).
End Comparator.

(** *** A concrete instance: the release segment of a version

    Versions that consist of a release segment only (numbers separated by
    dots, as in [0.43.1]).  Their sort key is the list of the numbers
    without trailing zeros, compared lexicographically. *)
Module ReleaseOnly.

Definition digit_value (c : ascii) : option N :=
  if Re.is_digit c then Some (N.of_nat (nat_of_ascii c - 48)) else None.

(** Reads the numbers between dots; [cur] is the number being read. *)
Fixpoint parse_from (cur : option N) (s : string) : option (list N) :=
  match s with
  | EmptyString => match cur with Some n => Some [n] | None => None end
  | String c s' =>
      if Ascii.eqb c "." then
        match cur with
        | Some n =>
            match parse_from None s' with
            | Some l => Some (n :: l)
            | None => None
            end
        | None => None
        end
      else
        match digit_value c with
        | Some d =>
            parse_from (Some (match cur with Some n => 10 * n + d | None => d end)%N) s'
        | None => None
        end
  end.

Definition parse (s : string) : option (list N) := parse_from None s.

(** A key against the empty key: the first component that is not zero
    decides. *)
Fixpoint cmp_nil (a : list N) : comparison :=
  match a with
  | [] => Eq
  | x :: a' => match (x ?= 0)%N with Eq => cmp_nil a' | c => c end
  end.

(** Lexicographic comparison in which a missing component counts as zero:
    the comparison of the keys with trailing zeros removed. *)
Fixpoint cmp (a b : list N) : comparison :=
  match a, b with
  | [], _ => CompOpp (cmp_nil b)
  | _ :: _, [] => cmp_nil a
  | x :: a', y :: b' => match (x ?= y)%N with Eq => cmp a' b' | c => c end
  end.

#[export] Instance release_only : PackagingVersion := {|
  Version := list N;
  version_parse := parse;
  version_cmp := cmp
|}.

End ReleaseOnly.

(* ===================================================================== *)
(** ** The world of a run: file system, commands, oracle *)
(* ===================================================================== *)

(** The paths the program touches. *)
Inductive Path : Type :=
| INSTALL_DIR                       (* /opt/cursor *)
| BACKUP_DIR                        (* /opt/cursor_backups *)
| SYMLINK                           (* /usr/local/bin/cursor *)
| DESKTOP_IN                        (* /opt/cursor/cursor.desktop *)
| BackupDest (timestamp : string)   (* backup_dir / f"cursor_{timestamp}" *)
| TempFile (name : string)          (* the NamedTemporaryFile *)
| SquashfsRoot                      (* tmpdir_path / "squashfs-root" *)
| ChromeSandbox                     (* extracted_dir / "usr/share/cursor/chrome-sandbox" *)
| AppRun                            (* install_dir / "AppRun" *)
| DesktopDir.                       (* ~/.local/share/applications *)

(** The installed metadata file as [get_installed_version] sees it.
    [Path.is_file] answers [False] when the path is missing or is no
    regular file, and lets every other error of the underlying [stat]
    through (up to Python 3.13; later versions answer [False]).
    [Path.read_text] opens, reads and decodes the file. *)
Inductive DesktopFile : Type :=
| NotAFile                          (* [is_file()] is false *)
| Inaccessible                      (* [is_file()] raises PermissionError: the
                                       directory cannot be searched *)
| Unreadable                        (* [read_text()] raises an OSError *)
| Undecodable (text : string)       (* [read_text()] raises UnicodeDecodeError,
                                       a ValueError; [text] is its [str(e)] *)
| Text (contents : string).

Record Perm : Type := mkPerm { owner : string; mode : string }.

(** What is tracked of a bundle directory. *)
Record Tree : Type := mkTree {
  cursor_desktop : DesktopFile;
  chrome_sandbox : option Perm
}.

(** An entry of the backup directory: the tree from which it was made,
    and the trees that later copies to the same name have put inside it,
    oldest first ([cp -R] copies into a destination that exists).  The
    owner and mode that [cp] gives to what it copies are not tracked. *)
Record Backup : Type := mkBackup {
  copied : Tree;
  inside : list Tree
}.

Record FS : Type := mkFS {
  install_dir : option Tree;                 (* INSTALL_DIR, when it exists *)
  backup_dir : option (list (string * Backup)); (* BACKUP_DIR and its entries *)
  symlink : option Path;                     (* target of SYMLINK *)
  temp_files : list string;                  (* downloaded artifacts on disk *)
  scratch : option Tree                      (* squashfs-root in the extraction directory *)
}.

(** The subprocess calls of the program. *)
Inductive Cmd : Type :=
| Which (dep : string)              (* which <dep> *)
| SudoValidate                      (* sudo -v *)
| Mkdir_p (dir : Path)              (* sudo mkdir -p <dir> *)
| Cp_R (src dest : Path)            (* sudo cp -R <src> <dest> *)
| AppimageExtract (appimage : Path) (* <appimage> --appimage-extract *)
| Chown_root (p : Path)             (* sudo chown root:root <p> *)
| Chmod_4755 (p : Path)             (* sudo chmod 4755 <p> *)
| Rm_rf (p : Path)                  (* sudo rm -rf <p> *)
| Mv (src dest : Path)              (* sudo mv <src> <dest> *)
| Rm_f (p : Path)                   (* sudo rm -f <p> *)
| Ln_sf (target link : Path)        (* sudo ln -sf <target> <link> *)
| UpdateDesktopDatabase (dir : Path).

Inductive CmdResult : Type :=
| Completed                         (* exit status 0 *)
| Failed                            (* CalledProcessError *)
| NotStarted.                       (* OSError: the program could not be run *)

Inductive ApiResult : Type :=
| ApiNetworkError (text : string)   (* RequestException *)
| ApiBadJson (text : string)        (* ValueError from resp.json() *)
| ApiJson (downloadUrl : option string).

Inductive DownloadResult : Type :=
| TempFileFails                     (* NamedTemporaryFile raises *)
| TransferFails                     (* the request or the stream raises *)
| ChmodFails                        (* chmod of the finished file raises *)
| Downloaded.

(** Outcomes of the interactions of one run with its environment. *)
Record World : Type := mkWorld {
  cmd_result : Cmd -> CmdResult;
  api : ApiResult;
  now : string;                     (* datetime.now().strftime(...) *)
  stdin : option string;            (* input(); [None]: EOFError *)
  download : DownloadResult;
  tmp_name : string;                (* name of the temporary artifact *)
  mkdtemp_ok : bool;                (* TemporaryDirectory could be made *)
  extracted : option Tree;          (* what the extraction leaves as squashfs-root *)
  rm_leaves : option Tree;          (* INSTALL_DIR after a failed rm -rf *)
  mv_leaves : option Tree;          (* INSTALL_DIR after a failed mv *)
  desktop_dir_exists : bool;
  unlink_ok : bool
}.

Inductive Event : Type :=
| Ran (c : Cmd)
| ApiGet (platform : string)
| HttpGet (url : string)
| Prompt (text : string)
| Unlink (p : Path).

Record State : Type := mkState {
  fs : FS;
  trace : list Event;               (* oldest first *)
  out : list string                 (* lines written with print *)
}.

Definition set_fs (f : FS -> FS) (st : State) : State :=
  mkState (f (fs st)) (trace st) (out st).

Definition with_install_dir (t : option Tree) (f : FS) : FS :=
  mkFS t (backup_dir f) (symlink f) (temp_files f) (scratch f).
Definition with_backup_dir (b : option (list (string * Backup))) (f : FS) : FS :=
  mkFS (install_dir f) b (symlink f) (temp_files f) (scratch f).
Definition with_symlink (l : option Path) (f : FS) : FS :=
  mkFS (install_dir f) (backup_dir f) l (temp_files f) (scratch f).
Definition with_temp_files (l : list string) (f : FS) : FS :=
  mkFS (install_dir f) (backup_dir f) (symlink f) l (scratch f).
Definition with_scratch (t : option Tree) (f : FS) : FS :=
  mkFS (install_dir f) (backup_dir f) (symlink f) (temp_files f) t.

Definition is_some {A} (o : option A) : bool :=
  match o with Some _ => true | None => false end.

(** [Path.exists()] *)
Definition path_exists (w : World) (f : FS) (p : Path) : bool :=
  match p with
  | INSTALL_DIR => is_some (install_dir f)
  | BACKUP_DIR => is_some (backup_dir f)
  | SYMLINK => is_some (symlink f)           (* exists() or is_symlink() *)
  | SquashfsRoot => is_some (scratch f)
  | ChromeSandbox =>
      match scratch f with Some t => is_some (chrome_sandbox t) | None => false end
  | DesktopDir => desktop_dir_exists w
  | DESKTOP_IN =>                            (* not asked by the program *)
      match install_dir f with
      | Some t => match cursor_desktop t with NotAFile => false | _ => true end
      | None => false
      end
  | BackupDest ts =>
      match backup_dir f with
      | Some l => existsb (fun e => (fst e =? ts)%string) l
      | None => false
      end
  | TempFile n => existsb (fun m => (m =? n)%string) (temp_files f)
  | AppRun => is_some (install_dir f)
  end.

(** The metadata file at a path. *)
Definition desktop_file_at (f : FS) (p : Path) : DesktopFile :=
  match p with
  | DESKTOP_IN =>
      match install_dir f with Some t => cursor_desktop t | None => NotAFile end
  | _ => NotAFile
  end.

Definition set_sandbox (g : Perm -> Perm) (t : Tree) : Tree :=
  mkTree (cursor_desktop t)
         (match chrome_sandbox t with Some p => Some (g p) | None => None end).

(** [cp -R <tree> <backup_dir>/<name>]: a new entry when the name is free;
    otherwise the copy lands inside the entry of that name, which keeps
    what it had. *)
Fixpoint copy_to (name : string) (t : Tree) (l : list (string * Backup))
    : list (string * Backup) :=
  match l with
  | [] => [(name, mkBackup t [])]
  | (n, b) :: l' =>
      if (n =? name)%string then (n, mkBackup (copied b) (inside b ++ [t])) :: l'
      else (n, b) :: copy_to name t l'
  end.

(** The effect of a command that completed. *)
Definition effect (w : World) (c : Cmd) (f : FS) : FS :=
  match c with
  | Mkdir_p BACKUP_DIR =>
      match backup_dir f with
      | None => with_backup_dir (Some []) f
      | Some _ => f
      end
  | Cp_R INSTALL_DIR (BackupDest ts) =>
      match install_dir f, backup_dir f with
      | Some t, Some l => with_backup_dir (Some (copy_to ts t l)) f
      | _, _ => f
      end
  | AppimageExtract _ => with_scratch (extracted w) f
  | Chown_root ChromeSandbox =>
      match scratch f with
      | Some t => with_scratch (Some (set_sandbox (fun p => mkPerm "root:root" (mode p)) t)) f
      | None => f
      end
  | Chmod_4755 ChromeSandbox =>
      match scratch f with
      | Some t => with_scratch (Some (set_sandbox (fun p => mkPerm (owner p) "4755") t)) f
      | None => f
      end
  | Rm_rf INSTALL_DIR => with_install_dir None f
  | Mv SquashfsRoot INSTALL_DIR =>
      match install_dir f with
      | None => with_scratch None (with_install_dir (scratch f) f)
      | Some _ => with_scratch None f   (* lands inside the existing directory *)
      end
  | Rm_f SYMLINK => with_symlink None f
  | Ln_sf target SYMLINK => with_symlink (Some target) f
  | _ => f
  end.

(** What a command that failed leaves behind. *)
Definition failed_effect (w : World) (c : Cmd) (f : FS) : FS :=
  match c with
  | AppimageExtract _ => with_scratch (extracted w) f
  | Rm_rf INSTALL_DIR => with_install_dir (rm_leaves w) f
  | Mv SquashfsRoot INSTALL_DIR => with_install_dir (mv_leaves w) f
  | _ => f
  end.

(* ===================================================================== *)
(** ** Exceptions and state *)
(* ===================================================================== *)

Inductive Exn : Type :=
| CalledProcessError
| OSError
| RequestException (text : string)
| ValueError (text : string)
| KeyError (text : string)
| IndexError
| EOFError
| SystemExit (msg : string).

(** [SystemExit] is not an [Exception]: [except Exception] lets it through. *)
Definition is_Exception (e : Exn) : bool :=
  match e with SystemExit _ => false | _ => true end.

(** [str(e)] *)
Definition exn_text (e : Exn) : string :=
  match e with
  | RequestException t | ValueError t | KeyError t => t
  | SystemExit m => m
  | CalledProcessError => "Command returned non-zero exit status"
  | OSError => "OSError"
  | IndexError => "list index out of range"
  | EOFError => "EOF when reading a line"
  end.

Inductive Result (A : Type) : Type :=
| Val (a : A)
| Raise (e : Exn).
Arguments Val {A}.
Arguments Raise {A}.

(** A computation reads and updates the state of the run and ends with a
    value or an exception; the state survives an exception. *)
Definition M (A : Type) : Type := State -> Result A * State.

Definition ret {A} (a : A) : M A := fun st => (Val a, st).

Definition bind {A B} (c : M A) (k : A -> M B) : M B :=
  fun st =>
    match c st with
    | (Val a, st') => k a st'
    | (Raise e, st') => (Raise e, st')
    end.

Definition raise {A} (e : Exn) : M A := fun st => (Raise e, st).

(** [try: c except <those e with handler e = Some h>: h] *)
Definition try_except {A} (c : M A) (handler : Exn -> option (M A)) : M A :=
  fun st =>
    match c st with
    | (Val a, st') => (Val a, st')
    | (Raise e, st') =>
        match handler e with
        | Some h => h st'
        | None => (Raise e, st')
        end
    end.

(** [try: c finally: cleanup] for a cleanup that cannot fail. *)
Definition finally {A} (c : M A) (cleanup : State -> State) : M A :=
  fun st => let '(r, st') := c st in (r, cleanup st').

Definition get_state : M State := fun st => (Val st, st).
Definition modify (f : State -> State) : M unit := fun st => (Val tt, f st).

Declare Scope py_scope.
Delimit Scope py_scope with py.
Notation "x <- c1 ;; c2" := (bind c1 (fun x => c2))
  (at level 61, c1 at next level, right associativity) : py_scope.
Notation "c1 ;; c2" := (bind c1 (fun _ => c2))
  (at level 61, right associativity) : py_scope.
Local Open Scope py_scope.

Definition sys_exit {A} (msg : string) : M A := raise (SystemExit msg).

Definition record (e : Event) : M unit :=
  modify (fun st => mkState (fs st) (trace st ++ [e]) (out st)).

Definition print (line : string) : M unit :=
  modify (fun st => mkState (fs st) (trace st) (out st ++ [line])).

Definition exists_ (w : World) (p : Path) : M bool :=
  st <- get_state ;; ret (path_exists w (fs st) p).

(** [subprocess.run(cmd, check=True, ...)] *)
Definition subprocess_run (w : World) (c : Cmd) : M unit :=
  record (Ran c) ;;
  match cmd_result w c with
  | Completed => modify (set_fs (effect w c))
  | Failed => modify (set_fs (failed_effect w c)) ;; raise CalledProcessError
  | NotStarted => raise OSError
  end.

(** [run]: the logging wrapper re-raises what [subprocess.run] raises. *)
Definition run (w : World) (c : Cmd) : M unit := subprocess_run w c.

(* ===================================================================== *)
(** ** Version Reader *)
(* ===================================================================== *)

Definition VERSION_KEY : string := "X-AppImage-Version=".

(** The loop over the lines of the metadata file; it touches no state. *)
Fixpoint scan_lines (lines : list string) : Result (option string) :=
  match lines with
  | [] => Val None
  | line :: lines' =>
      if PyStr.startswith VERSION_KEY line then
        match PyStr.after_first "=" line with
        | Some v => Val (Some (PyStr.strip v))
        | None => Raise IndexError
        end
      else scan_lines lines'
  end.

Definition lift {A} (r : Result A) : M A := fun st => (r, st).

(** [Path.read_text()]: an OSError when the file cannot be opened or read,
    a UnicodeDecodeError when its bytes are no text in the encoding of the
    locale. *)
Definition read_text (p : Path) : M string :=
  st <- get_state ;;
  match desktop_file_at (fs st) p with
  | Text s => ret s
  | Undecodable t => raise (ValueError t)
  | NotAFile | Inaccessible | Unreadable => raise OSError
  end.

(** [Path.is_file()] *)
Definition is_file (p : Path) : M bool :=
  st <- get_state ;;
  match desktop_file_at (fs st) p with
  | NotAFile => ret false
  | Inaccessible => raise OSError
  | Unreadable | Undecodable _ | Text _ => ret true
  end.

(** The test of [is_file] stands before the [try]; the [except] clause
    names [IOError] and [PermissionError], that is, the OSError family. *)
Definition get_installed_version (desktop_path : Path) : M (option string) :=
  f <- is_file desktop_path ;;
  if negb f then ret None
  else
    try_except
      (text <- read_text desktop_path ;; lift (scan_lines (PyStr.splitlines text)))
      (fun e => match e with OSError => Some (ret None) | _ => None end).

(* ===================================================================== *)
(** ** Release Resolver *)
(* ===================================================================== *)

Definition PLATFORM : string := "linux-x64".

(** Both [except] clauses log and re-raise. *)
Definition fetch_latest_info (w : World) (platform : string) : M (string * string) :=
  record (ApiGet platform) ;;
  match api w with
  | ApiNetworkError t => raise (RequestException t)
  | ApiBadJson t => raise (ValueError t)
  | ApiJson None => raise (KeyError "'downloadUrl missing from API response'")
  | ApiJson (Some download_url) => ret (download_url, extract_version download_url)
  end.

(* ===================================================================== *)
(** ** Dependencies, Backup Manager, Artifact Fetcher, Installer, Relink *)
(* ===================================================================== *)

(** The loop of [check_dependencies]; only [CalledProcessError] is caught. *)
Fixpoint missing_dependencies (w : World) (deps : list string) : M (list string) :=
  match deps with
  | [] => ret []
  | dep :: deps' =>
      found <- try_except (subprocess_run w (Which dep) ;; ret true)
                 (fun e => match e with
                           | CalledProcessError => Some (ret false)
                           | _ => None
                           end) ;;
      missing <- missing_dependencies w deps' ;;
      ret (if found then missing else dep :: missing)
  end.

Definition check_dependencies (w : World) : M bool :=
  missing <- missing_dependencies w ["sudo"; "update-desktop-database"] ;;
  ret (match missing with [] => true | _ => false end).

Definition except_Exception {A} (c : M A) (h : M A) : M A :=
  try_except c (fun e => if is_Exception e then Some h else None).

Definition backup_existing_install (w : World) (source_dir backup_dir : Path) : M bool :=
  src <- exists_ w source_dir ;;
  if negb src then ret true
  else
    except_Exception
      (let dest := BackupDest (now w) in
       bk <- exists_ w backup_dir ;;
       (if negb bk then run w (Mkdir_p backup_dir) else ret tt) ;;
       run w (Cp_R source_dir dest) ;;
       ret true)
      (ret false).

(** The temporary file exists from the moment it is created, whatever
    happens afterwards ([delete=False]). *)
Definition download_appimage (w : World) (url : string) : M (option Path) :=
  except_Exception
    (match download w with
     | TempFileFails => raise OSError
     | d =>
         modify (set_fs (fun f => with_temp_files (tmp_name w :: temp_files f) f)) ;;
         record (HttpGet url) ;;
         match d with
         | TransferFails => raise (RequestException "download")
         | ChmodFails => raise OSError
         | _ => ret (Some (TempFile (tmp_name w)))
         end
     end)
    (ret None).

(** The body runs inside [with TemporaryDirectory], which removes the
    directory and what is left in it on every exit. *)
Definition extract_and_install (w : World) (appimage_path install_dir : Path) : M bool :=
  except_Exception
    (if negb (mkdtemp_ok w) then raise OSError
     else
       finally
         (run w (AppimageExtract appimage_path) ;;
          let extracted_dir := SquashfsRoot in
          ex <- exists_ w extracted_dir ;;
          if negb ex then ret false
          else
            let sandbox := ChromeSandbox in
            sb <- exists_ w sandbox ;;
            (if sb then run w (Chown_root sandbox) ;; run w (Chmod_4755 sandbox)
             else ret tt) ;;
            old <- exists_ w install_dir ;;
            (if old then run w (Rm_rf install_dir) else ret tt) ;;
            run w (Mv extracted_dir install_dir) ;;
            ret true)
         (set_fs (with_scratch None)))
    (ret false).

Definition update_symlinks_and_db (w : World) (install_dir symlink : Path) : M bool :=
  except_Exception
    (l <- exists_ w symlink ;;
     (if l then run w (Rm_f symlink) else ret tt) ;;
     run w (Ln_sf AppRun symlink) ;;
     let desktop_dir := DesktopDir in
     d <- exists_ w desktop_dir ;;
     (if d then run w (UpdateDesktopDatabase desktop_dir) else ret tt) ;;
     ret true)
    (ret false).

(** [appimage_path.unlink()] *)
Definition unlink (w : World) (p : Path) : M unit :=
  record (Unlink p) ;;
  if unlink_ok w then
    match p with
    | TempFile n =>
        modify (set_fs (fun f =>
          with_temp_files (filter (fun m => negb (m =? n)%string) (temp_files f)) f))
    | _ => ret tt
    end
  else raise OSError.

Definition input (w : World) (prompt : string) : M string :=
  record (Prompt prompt) ;;
  match stdin w with
  | Some line => ret line
  | None => raise EOFError
  end.

(* ===================================================================== *)
(** ** Update Orchestrator *)
(* ===================================================================== *)

Record Args : Type := mkArgs {
  force : bool;
  no_backup : bool;
  check : bool;
  verbose : bool
}.

(** The three places where [main] returns. *)
Inductive Return : Type :=
| UpToDate                          (* after "Already up to date." *)
| CheckOnly                         (* after the report of --check *)
| Upgraded.                         (* at the end *)

Definition report_not_installed (latest : string) : string :=
  "Cursor not installed. Latest version available: " ++ latest.
Definition report_latest_unknown (installed : string) : string :=
  "Currently installed: " ++ installed ++ ". Cannot determine latest version.".
Definition report_update_available (installed latest : string) : string :=
  "Update available: " ++ installed ++ " → " ++ latest.

Definition BACKUP_PROMPT : string := "Backup failed. Continue anyway? (y/N): ".

Section Orchestrator.
Context `{PackagingVersion}.

Definition main (args : Args) (w : World) : M Return :=
    deps <- check_dependencies w ;;
    if negb deps then sys_exit "Missing required system dependencies" else
    try_except (run w SudoValidate)
      (fun e => match e with
                | CalledProcessError => Some (sys_exit "This script requires sudo privileges")
                | _ => None
                end) ;;
    (* 1) Check installed version *)
    installed_version <- get_installed_version DESKTOP_IN ;;
    (* 2) Fetch latest version info *)
    info <- try_except (fetch_latest_info w PLATFORM)
              (fun e => if is_Exception e
                        then Some (sys_exit ("Failed to fetch latest version info: " ++ exn_text e)%string)
                        else None) ;;
    let '(download_url, latest_version) := info in
    (* 3) Compare versions *)
    if already_up_to_date installed_version latest_version (force args) then ret UpToDate else
    if check args then
      (match installed_version with
       | Some (String c s) =>
           if (latest_version =? "Unknown")%string
           then print (report_latest_unknown (String c s))
           else print (report_update_available (String c s) latest_version)
       | _ => print (report_not_installed latest_version)
       end) ;;
      ret CheckOnly
    else
    (* 4) Backup existing installation *)
    inst <- exists_ w INSTALL_DIR ;;
    (if negb (no_backup args) && inst then
       ok <- backup_existing_install w INSTALL_DIR BACKUP_DIR ;;
       if negb ok then
         answer <- input w BACKUP_PROMPT ;;
         if negb (PyStr.lower answer =? "y")%string then sys_exit "Update aborted"
         else ret tt
       else ret tt
     else ret tt) ;;
    (* 5) Download new AppImage *)
    appimage <- download_appimage w download_url ;;
    match appimage with
    | None => sys_exit "Download failed"
    | Some appimage_path =>
        (* 6) Extract & install *)
        installed_ok <- extract_and_install w appimage_path INSTALL_DIR ;;
        if negb installed_ok then sys_exit "Installation failed" else
        (* 7) Update symlinks and desktop database (a failure is a warning) *)
        _ <- update_symlinks_and_db w INSTALL_DIR SYMLINK ;;
        (* 8) Cleanup *)
        except_Exception (unlink w appimage_path) (ret tt) ;;
        print (String PyStr.LF "✓ Cursor has been upgraded to version " ++ latest_version)%string ;;
        print "  Run `cursor` to launch" ;;
        ret Upgraded
    end.

  (** The [__main__] block: the exit status of the process.  [sys.exit]
      with a message exits with status 1; any other exception is reported
      and exits with status 1 as well. *)
Definition script (args : Args) (w : World) (st : State) : nat * State :=
    match main args w st with
    | (Val _, st') => (0, st')
    | (Raise (SystemExit _), st') => (1, st')
    | (Raise e, st') =>
        (1, mkState (fs st') (trace st')
              (out st' ++ [(String PyStr.LF "Error: " ++ exn_text e)%string;
                           "See log for details: ~/.cursor_updater.log"]))
    end.
End Orchestrator.

Definition initial (f : FS) : State := mkState f [] [].

(** The installed version that a run started in file system [f] reads. *)
Definition installed_in (f : FS) : Result (option string) :=
  fst (get_installed_version DESKTOP_IN (initial f)).

(** The report of a check-only run. *)
Definition check_report (installed_version : option string) (latest_version : string)
    : string :=
  match installed_version with
  | Some (String c s) =>
      if (latest_version =? "Unknown")%string
      then report_latest_unknown (String c s)
      else report_update_available (String c s) latest_version
  | _ => report_not_installed latest_version
  end.

(** The step of the pipeline to which an event belongs. *)
Definition phase (e : Event) : nat :=
  match e with
  | Ran (Which _) => 0
  | Ran SudoValidate => 1
  | ApiGet _ => 2
  | Ran (Mkdir_p _) | Ran (Cp_R _ _) => 3
  | Prompt _ => 4
  | HttpGet _ => 5
  | Ran (AppimageExtract _) => 6
  | Ran (Chown_root _) | Ran (Chmod_4755 _) => 7
  | Ran (Rm_rf _) | Ran (Mv _ _) => 8
  | Ran (Rm_f _) | Ran (Ln_sf _ _) | Ran (UpdateDesktopDatabase _) => 9
  | Unlink _ => 10
  end.

(** [st'] extends the trace of [st] by events of the phases [lo] to [hi]. *)
Definition adds (lo hi : nat) (st st' : State) : Prop :=
  exists evs, trace st' = trace st ++ evs
              /\ Forall (fun e => lo <= phase e <= hi) evs.

(** Nothing later than phase [n] has happened. *)
Definition upto (n : nat) (st : State) : Prop :=
  Forall (fun e => phase e <= n) (trace st).

(** The run gets as far as the comparison: the dependencies are found,
    sudo is granted and the remote service names a download location. *)
Definition prelude_ok (w : World) : Prop :=
  cmd_result w (Which "sudo") = Completed
  /\ cmd_result w (Which "update-desktop-database") = Completed
  /\ cmd_result w SudoValidate = Completed
  /\ exists url, api w = ApiJson (Some url).

(** The confirmation was asked only of a user who then answered yes. *)
Definition prompt_accepted (w : World) (st : State) : Prop :=
  forall p, In (Prompt p) (trace st) ->
  exists answer, stdin w = Some answer /\ PyStr.lower answer = "y".

(** The exceptions with which a run can stop before the comparison. *)
Definition early_exit (e : Exn) : Prop :=
  e = OSError
  \/ e = SystemExit "Missing required system dependencies"
  \/ e = SystemExit "This script requires sudo privileges"
  \/ (exists text, e = SystemExit ("Failed to fetch latest version info: " ++ text))
  \/ (exists text, e = ValueError text).

(** How a run that got past the comparison and is not check-only ends:
    refused after a failed backup, or (the user having accepted if asked)
    with a failed download, a failed installation, or the upgrade. *)
Definition pipeline_outcome (w : World) (f : FS) (r : Result Return) (st' : State)
    : Prop :=
  (install_dir (fs st') = install_dir f
   /\ temp_files (fs st') = temp_files f
   /\ out st' = [] /\ upto 4 st'
   /\ ((stdin w = None /\ r = Raise EOFError)
       \/ (exists answer, stdin w = Some answer /\ PyStr.lower answer <> "y"
                          /\ r = Raise (SystemExit "Update aborted"))))
  \/ (prompt_accepted w st'
      /\ ((r = Raise (SystemExit "Download failed")
           /\ install_dir (fs st') = install_dir f
           /\ out st' = [] /\ upto 5 st'
           /\ download w <> Downloaded
           /\ (download w <> TempFileFails -> In (tmp_name w) (temp_files (fs st'))))
          \/ (r = Raise (SystemExit "Installation failed")
              /\ download w = Downloaded
              /\ In (tmp_name w) (temp_files (fs st'))
              /\ out st' = [] /\ upto 8 st'
              /\ (extracted w = None ->
                  install_dir (fs st') = install_dir f /\ upto 6 st'))
          \/ (r = Val Upgraded /\ download w = Downloaded /\ extracted w <> None))).

(** *** The version pattern, read declaratively *)

Fixpoint all_chars (p : ascii -> bool) (s : string) : bool :=
  match s with
  | EmptyString => true
  | String c s' => p c && all_chars p s'
  end.

(** [\d+]: a non-empty run of digits. *)
Definition digits (s : string) : bool :=
  match s with
  | EmptyString => false
  | String _ _ => all_chars Re.is_digit s
  end.

(** [\d+\.\d+\.\d+] *)
Definition is_triple (m : string) : Prop :=
  exists a b c, m = (a ++ "." ++ b ++ "." ++ c)%string
                /\ digits a = true /\ digits b = true /\ digits c = true.

Fixpoint last_or (d : option ascii) (s : string) : option ascii :=
  match s with
  | EmptyString => d
  | String c s' => last_or (Some c) s'
  end.

Definition last_char (s : string) : option ascii := last_or None s.

Definition first_char (s : string) : option ascii :=
  match s with
  | String c _ => Some c
  | EmptyString => None
  end.

Definition is_word_opt (o : option ascii) : bool :=
  match o with
  | Some c => Re.is_word c
  | None => false
  end.

(** An occurrence [m] of the pattern between [pre] and [post] with a word
    boundary on both sides: no word character right before or after it. *)
Definition delimited (pre m post : string) : Prop :=
  is_triple m
  /\ is_word_opt (last_char pre) = false
  /\ is_word_opt (first_char post) = false.

(** The longest prefix of characters of a class, and what follows it. *)
Fixpoint span (p : ascii -> bool) (s : string) : string * string :=
  match s with
  | String c s' =>
      if p c then let (a, r) := span p s' in (String c a, r) else (EmptyString, s)
  | EmptyString => (EmptyString, EmptyString)
  end.

(** A non-empty run of digits at the start of [s]. *)
Definition digits_then (s : string) : option (string * string) :=
  match span Re.is_digit s with
  | (String c a, r) => Some (String c a, r)
  | (EmptyString, _) => None
  end.

Definition dot_then (s : string) : option string :=
  match s with
  | String d s' => if Re.is_dot d then Some s' else None
  | EmptyString => None
  end.

(** The triple at the start of [s], each run of digits taken whole. *)
Definition triple_prefix (s : string) : option (string * string) :=
  match digits_then s with
  | None => None
  | Some (a, r1) =>
      match dot_then r1 with
      | None => None
      | Some r1' =>
          match digits_then r1' with
          | None => None
          | Some (b, r2) =>
              match dot_then r2 with
              | None => None
              | Some r2' =>
                  match digits_then r2' with
                  | None => None
                  | Some (c, r3) => Some ((a ++ "." ++ b ++ "." ++ c)%string, r3)
                  end
              end
          end
      end
  end.



(* ===================================================================== *)
(** ** Concrete runs *)
(* ===================================================================== *)



(** An installation of version 0.42.0, without backups so far. *)
Definition fs_0_42_0 : FS :=
  mkFS (Some (mkTree (Text "X-AppImage-Version=0.42.0") None)) None None [] None.

Definition fs_0_43_1 : FS :=
  mkFS (Some (mkTree (Text "X-AppImage-Version=0.43.1") None)) None None [] None.

Definition bundle_0_43_1 : Tree :=
  mkTree (Text "X-AppImage-Version=0.43.1") (Some (mkPerm "user:user" "0755")).

(** A world in which everything succeeds and the remote release is
    0.43.1; the user, if asked, answers [n]. *)
Definition world_ok : World :=
  mkWorld (fun _ => Completed)
          (ApiJson (Some "https://downloads.cursor.com/linux/x64/Cursor-0.43.1-x86_64.AppImage"))
          "20250101_120000" (Some "n") Downloaded "/tmp/tmpq1w2e3.AppImage"
          true (Some bundle_0_43_1) None None true true.

(** The same world, except that the extraction leaves no squashfs-root. *)
Definition world_no_payload : World :=
  mkWorld (cmd_result world_ok) (api world_ok) (now world_ok) (stdin world_ok)
          Downloaded (tmp_name world_ok) true None None None true true.

(** The same world, except that the transfer breaks off. *)
Definition world_transfer_fails : World :=
  mkWorld (cmd_result world_ok) (api world_ok) (now world_ok) (stdin world_ok)
          TransferFails (tmp_name world_ok) true (Some bundle_0_43_1) None None true true.

(** The same world, except that the copy of the backup fails. *)
Definition world_backup_fails : World :=
  mkWorld (fun c => match c with Cp_R _ _ => Failed | _ => Completed end)
          (api world_ok) (now world_ok) (stdin world_ok)
          Downloaded (tmp_name world_ok) true (Some bundle_0_43_1) None None true true.

Definition args_default : Args := mkArgs false false false false.
Definition args_check : Args := mkArgs false false true false.
Definition args_force_check : Args := mkArgs true false true false.

(* ===================================================================== *)
(** ** Outcomes of the steps, as functions of the oracle *)
(* ===================================================================== *)

Definition completed (r : CmdResult) : bool :=
  match r with Completed => true | _ => false end.

(** Both probes of [check_dependencies] find their program. *)
Definition dependencies_found (w : World) : bool :=
  completed (cmd_result w (Which "sudo"))
  && completed (cmd_result w (Which "update-desktop-database")).


(** The extraction leaves a payload and the permissions of its sandbox
    helper, if it has one, are set. *)
Definition payload_ready (w : World) (appimage : Path) : bool :=
  mkdtemp_ok w
  && completed (cmd_result w (AppimageExtract appimage))
  && match extracted w with
     | Some t =>
         match chrome_sandbox t with
         | Some _ => completed (cmd_result w (Chown_root ChromeSandbox))
                     && completed (cmd_result w (Chmod_4755 ChromeSandbox))
         | None => true
         end
     | None => false
     end.

(** The old installation, if any, is removed and the payload moved in. *)
Definition swap_ok (w : World) (old : option Tree) : bool :=
  (match old with
   | Some _ => completed (cmd_result w (Rm_rf INSTALL_DIR))
   | None => true
   end)
  && completed (cmd_result w (Mv SquashfsRoot INSTALL_DIR)).

Definition install_ok (w : World) (appimage : Path) (old : option Tree) : bool :=
  payload_ready w appimage && swap_ok w old.

(** A payload whose sandbox helper, if any, is owned by root and setuid. *)
Definition hardened (t : Tree) : Tree :=
  mkTree (cursor_desktop t)
         (match chrome_sandbox t with
          | Some _ => Some (mkPerm "root:root" "4755")
          | None => None
          end).

(** The link is replaced: an old one is removed first, the new one made. *)
Definition link_ok (w : World) (old : option Path) : bool :=
  (match old with
   | Some _ => completed (cmd_result w (Rm_f SYMLINK))
   | None => true
   end)
  && completed (cmd_result w (Ln_sf AppRun SYMLINK)).

Definition relink_ok (w : World) (old : option Path) : bool :=
  link_ok w old
  && (if desktop_dir_exists w
      then completed (cmd_result w (UpdateDesktopDatabase DesktopDir))
      else true).

Definition add_events (evs : list Event) (st : State) : State :=
  mkState (fs st) (trace st ++ evs) (out st).

(** The interactions of every run that gets as far as the comparison. *)
Definition prelude_events : list Event :=
  [Ran (Which "sudo"); Ran (Which "update-desktop-database"); Ran SudoValidate;
   ApiGet PLATFORM].

(** [str(e)] of what [fetch_latest_info] raises for a response. *)
Definition api_error_text (a : ApiResult) : option string :=
  match a with
  | ApiNetworkError t | ApiBadJson t => Some t
  | ApiJson None => Some "'downloadUrl missing from API response'"
  | ApiJson (Some _) => None
  end.

Section OrchestratorView.
Context `{PackagingVersion}.

(** Steps 4 to 8 of [main], as they stand there. *)
Definition pipeline (args : Args) (w : World) (download_url latest_version : string)
    : M Return :=
  inst <- exists_ w INSTALL_DIR ;;
  (if negb (no_backup args) && inst then
     ok <- backup_existing_install w INSTALL_DIR BACKUP_DIR ;;
     if negb ok then
       answer <- input w BACKUP_PROMPT ;;
       if negb (PyStr.lower answer =? "y")%string then sys_exit "Update aborted"
       else ret tt
     else ret tt
   else ret tt) ;;
  appimage <- download_appimage w download_url ;;
  match appimage with
  | None => sys_exit "Download failed"
  | Some appimage_path =>
      installed_ok <- extract_and_install w appimage_path INSTALL_DIR ;;
      if negb installed_ok then sys_exit "Installation failed" else
      _ <- update_symlinks_and_db w INSTALL_DIR SYMLINK ;;
      except_Exception (unlink w appimage_path) (ret tt) ;;
      print (String PyStr.LF "✓ Cursor has been upgraded to version " ++ latest_version)%string ;;
      print "  Run `cursor` to launch" ;;
      ret Upgraded
  end.

(** Step 3 of [main] and what follows it, as they stand there. *)
Definition decide (args : Args) (w : World) (installed_version : option string)
    (download_url latest_version : string) : M Return :=
  if already_up_to_date installed_version latest_version (force args) then ret UpToDate else
  if check args then
    (match installed_version with
     | Some (String c s) =>
         if (latest_version =? "Unknown")%string
         then print (report_latest_unknown (String c s))
         else print (report_update_available (String c s) latest_version)
     | _ => print (report_not_installed latest_version)
     end) ;;
    ret CheckOnly
  else pipeline args w download_url latest_version.

End OrchestratorView.

(* ===================================================================== *)
(** ** The stand-alone version checker ([version_check.py]) *)
(* ===================================================================== *)

Module VersionCheck.

(** [fetch_latest_download_url].  The message of the KeyError shows the
    whole response, which the oracle does not keep: [key_error_text]
    stands for [str(e)] of that error. *)
Definition fetch_latest_download_url (w : World) (key_error_text : string)
    (platform : string) : M string :=
  record (ApiGet platform) ;;
  match api w with
  | ApiNetworkError t => raise (RequestException t)
  | ApiBadJson t => raise (ValueError t)
  | ApiJson None => raise (KeyError key_error_text)
  | ApiJson (Some download_url) => ret download_url
  end.

(** [main]: the exit status, the lines written to the standard error
    stream, and the state with the lines written to the standard output. *)
Definition main (w : World) (key_error_text : string) (st : State)
    : nat * list string * State :=
  match
    (download_url <- fetch_latest_download_url w key_error_text PLATFORM ;;
     let version := extract_version download_url in
     print ("Latest Cursor version for " ++ PLATFORM ++ ": " ++ version)%string ;;
     print ("Download URL: " ++ download_url)%string) st
  with
  | (Val _, st') => (0, [], st')
  | (Raise e, st') =>
      if is_Exception e then (1, [("Error: " ++ exn_text e)%string], st')
      else (1, [exn_text e], st')
  end.

End VersionCheck.

(* ===================================================================== *)
(** ** The order of the interactions *)
(* ===================================================================== *)

Definition phase_le (a b : Event) : Prop := phase a <= phase b.

(** Every event comes no later in the pipeline than those after it. *)
Definition in_order (l : list Event) : Prop := StronglySorted phase_le l.

Definition ordered_upto (n : nat) (st : State) : Prop :=
  in_order (trace st) /\ upto n st.

(** A computation that, started after the phases up to [lo], adds events
    of the phases [lo] to [hi] in order. *)
Definition keeps {A} (lo hi : nat) (c : M A) : Prop :=
  forall st r st', c st = (r, st') -> ordered_upto lo st -> ordered_upto hi st'.

(** More worlds: a missing dependency, sudo refused, the service down, a
    download location without a version, a failing backup accepted by the
    user, a move that cannot be started. *)
Definition world_missing_dep : World :=
  mkWorld (fun c => match c with
                    | Which d => if (d =? "sudo")%string then Completed else Failed
                    | _ => Completed
                    end)
          (api world_ok) (now world_ok) (stdin world_ok) Downloaded
          (tmp_name world_ok) true (Some bundle_0_43_1) None None true true.

Definition world_sudo_denied : World :=
  mkWorld (fun c => match c with SudoValidate => Failed | _ => Completed end)
          (api world_ok) (now world_ok) (stdin world_ok) Downloaded
          (tmp_name world_ok) true (Some bundle_0_43_1) None None true true.


Definition world_no_version : World :=
  mkWorld (cmd_result world_ok)
          (ApiJson (Some "https://downloads.cursor.com/linux/x64/Cursor-latest.AppImage"))
          (now world_ok) (stdin world_ok) Downloaded
          (tmp_name world_ok) true (Some bundle_0_43_1) None None true true.

Definition world_backup_accepted : World :=
  mkWorld (cmd_result world_backup_fails) (api world_ok) (now world_ok) (Some "Y")
          Downloaded (tmp_name world_ok) true (Some bundle_0_43_1) None None true true.

Definition world_no_move : World :=
  mkWorld (fun c => match c with Mv _ _ => NotStarted | _ => Completed end)
          (api world_ok) (now world_ok) (stdin world_ok) Downloaded
          (tmp_name world_ok) true (Some bundle_0_43_1) None None true true.

Definition fs_fresh : FS := mkFS None None None [] None.


(** An installation in a directory that the user may not search. *)
Definition fs_inaccessible : FS :=
  mkFS (Some (mkTree Inaccessible None)) None None [] None.

Definition args_force : Args := mkArgs true false false false.

(* ===================================================================== *)
(** * Properties *)
(* ===================================================================== *)

(** ** Strings *)

Lemma startswith_iff (p s : string) :
  PyStr.startswith p s = true <-> exists v, s = (p ++ v)%string.
Proof.
  revert s; induction p as [|a p IH]; intros s; simpl.
  - split; [intros _; exists s; reflexivity | reflexivity].
  - destruct s as [|b s].
    + split; [discriminate | intros [v Hv]; discriminate].
    + destruct (Ascii.eqb_spec a b) as [->|Hab].
      * rewrite IH. split; intros [v Hv]; exists v.
        -- now rewrite Hv.
        -- now inversion Hv.
      * split; [discriminate | intros [v Hv]; simpl in Hv; congruence].
Qed.

(** The text after the first [=] of a line that starts with the key is
    what follows the key. *)
Lemma after_key (v : string) :
  PyStr.after_first "=" (VERSION_KEY ++ v) = Some v.
Proof. reflexivity. Qed.



(** The loop never raises: a line that starts with the key has an [=]. *)
Lemma scan_lines_total (lines : list string) :
  exists v, scan_lines lines = Val v.
Proof.
  induction lines as [|l ls IH]; cbn [scan_lines]; [now exists None|].
  destruct (PyStr.startswith VERSION_KEY l) eqn:Hs; [|exact IH].
  apply startswith_iff in Hs. destruct Hs as [v ->].
  rewrite after_key. eexists; reflexivity.
Qed.

(** Every list of lines either has no line with the key, or splits at the
    first one. *)
Lemma lines_split (lines : list string) :
  (forall l, In l lines -> PyStr.startswith VERSION_KEY l = false)
  \/ exists before v after,
       lines = before ++ (VERSION_KEY ++ v)%string :: after
       /\ forall l, In l before -> PyStr.startswith VERSION_KEY l = false.
Proof.
  induction lines as [|l ls IH].
  - left; intros l [].
  - destruct (PyStr.startswith VERSION_KEY l) eqn:Hs.
    + right. apply startswith_iff in Hs. destruct Hs as [v ->].
      exists [], v, ls. split; [reflexivity | intros l []].
    + destruct IH as [Hno | (before & v & after & -> & Hno)].
      * left. intros l' [<-|Hl']; [exact Hs | now apply Hno].
      * right. exists (l :: before), v, after. split; [reflexivity|].
        intros l' [<-|Hl']; [exact Hs | now apply Hno].
Qed.

(** ** Version Reader *)

Lemma get_installed_version_run (p : Path) (st : State) :
  get_installed_version p st =
  (match desktop_file_at (fs st) p with
   | NotAFile | Unreadable => Val None
   | Inaccessible => Raise OSError
   | Undecodable t => Raise (ValueError t)
   | Text s => scan_lines (PyStr.splitlines s)
   end, st).
Proof.
  unfold get_installed_version, is_file, read_text, bind, get_state, ret,
    try_except, lift, raise.
  cbn beta iota.
  destruct (desktop_file_at (fs st) p) as [| | |t|s] eqn:E; simpl; rewrite ?E;
    try reflexivity.
  destruct (scan_lines_total (PyStr.splitlines s)) as [v Hv]. rewrite Hv. reflexivity.
Qed.




(** The test of [is_file] stands before the [try]: when the test itself is
    refused, the error leaves the reader, although the [except] clause
    names [PermissionError]. *)
Example get_installed_version_refused :
  get_installed_version DESKTOP_IN (initial fs_inaccessible)
  = (Raise OSError, initial fs_inaccessible).
Proof. reflexivity. Qed.

(** ** Version Comparator *)

Lemma truthy_nonempty (s : string) : PyStr.truthy (Some s) = true <-> s <> "".
Proof.
  destruct s; simpl; split; intros; try congruence; try discriminate.
Qed.

Section ComparatorFacts.
Context `{PackagingVersion}.

Lemma gt_iff_not_ge (a b : Version) :
    cmp_antisym -> version_ge a b = false <-> version_gt b a = true.
Proof.
    intros Hanti. unfold version_ge, version_gt. rewrite (Hanti b a).
    destruct (version_cmp a b); simpl; split; congruence.
Qed.

  (** C1.  When the installed version is present, the latest one is known,
      both parse and the force flag is unset, an update is needed exactly
      when the latest version is greater than the installed one; none is
      needed when the two are equal in the version order.  The order of
      the library is assumed to be antisymmetric (it compares sort keys). *)
Theorem update_needed_semantic (installed latest : string) (vi vl : Version) :
    cmp_antisym ->
    PyStr.truthy (Some installed) = true ->
    latest <> "Unknown" ->
    version_parse installed = Some vi ->
    version_parse latest = Some vl ->
    (update_needed (Some installed) latest false = true <-> version_gt vl vi = true)
    /\ (version_cmp vl vi = Eq -> update_needed (Some installed) latest false = false).
Proof.
    intros Hanti Hpresent Hknown Hi Hl.
    unfold update_needed, already_up_to_date.
    rewrite Hpresent, Hi, Hl.
    apply String.eqb_neq in Hknown. rewrite Hknown. cbn [negb andb].
    rewrite andb_true_r. split.
    - rewrite negb_true_iff. now apply gt_iff_not_ge.
    - intros Heq. unfold version_ge. rewrite (Hanti vi vl), Heq. reflexivity.
Qed.

  (** C3.  When the installed version is present, the latest one is known,
      one of the two does not parse and the force flag is unset, an update
      is needed exactly when the two strings differ.  The comparator is a
      total function: the parse failure is absorbed, not raised. *)
Theorem update_needed_fallback (installed latest : string) :
    PyStr.truthy (Some installed) = true ->
    latest <> "Unknown" ->
    version_parse installed = None \/ version_parse latest = None ->
    (update_needed (Some installed) latest false = true <-> installed <> latest).
Proof.
    intros Hpresent Hknown Hfail.
    unfold update_needed, already_up_to_date.
    rewrite Hpresent. apply String.eqb_neq in Hknown. rewrite Hknown.
    cbn [negb andb].
    assert (Hgoal : negb ((installed =? latest)%string && true) = true <-> installed <> latest).
    { rewrite andb_true_r, negb_true_iff. apply String.eqb_neq. }
    destruct Hfail as [Hf|Hf].
    - rewrite Hf. exact Hgoal.
    - destruct (version_parse installed); rewrite ?Hf; exact Hgoal.
Qed.
End ComparatorFacts.

Module ReleaseOnlyFacts.
Import ReleaseOnly.

Lemma cmp_nil_r (a : list N) : cmp a [] = cmp_nil a.
Proof. destruct a; reflexivity. Qed.

Lemma cmp_antisym_holds : @cmp_antisym release_only.
Proof.
  unfold cmp_antisym; simpl.
  induction a as [|x a IH]; intros b.
  - rewrite cmp_nil_r. reflexivity.
  - destruct b as [|y b].
    + cbn [cmp]. now rewrite CompOpp_involutive.
    + cbn [cmp]. rewrite (N.compare_antisym x y).
      destruct (x ?= y)%N; simpl; auto.
Qed.

End ReleaseOnlyFacts.

Lemma update_needed_semantic_witness :
  (@update_needed ReleaseOnly.release_only (Some "0.42.0") "0.43.1" false = true
   <-> @version_gt ReleaseOnly.release_only [0; 43; 1]%N [0; 42; 0]%N = true)
  /\ (@version_cmp ReleaseOnly.release_only [0; 43; 1]%N [0; 42; 0]%N = Eq ->
      @update_needed ReleaseOnly.release_only (Some "0.42.0") "0.43.1" false = false).
Proof.
  apply (@update_needed_semantic ReleaseOnly.release_only "0.42.0" "0.43.1").
  - exact ReleaseOnlyFacts.cmp_antisym_holds.
  - reflexivity.
  - discriminate.
  - reflexivity.
  - reflexivity.
Defined.

Lemma update_needed_fallback_witness :
  @update_needed ReleaseOnly.release_only (Some "0.42.0-beta") "0.43.1" false = true
  <-> "0.42.0-beta" <> "0.43.1".
Proof.
  apply (@update_needed_fallback ReleaseOnly.release_only "0.42.0-beta" "0.43.1").
  - reflexivity.
  - discriminate.
  - left; reflexivity.
Defined.

(** ** The steps of the pipeline, one by one *)

Lemma bind_inv {A B} (c : M A) (k : A -> M B) (st : State) (r : Result B) (st' : State) :
  bind c k st = (r, st') ->
  (exists a st1, c st = (Val a, st1) /\ k a st1 = (r, st'))
  \/ (exists e, c st = (Raise e, st') /\ r = Raise e).
Proof.
  unfold bind. destruct (c st) as [[a|e] st1]; intros E.
  - left; now exists a, st1.
  - right; exists e. now inversion E.
Qed.

Lemma adds_refl (lo hi : nat) (st : State) : adds lo hi st st.
Proof. exists []. split; [now rewrite app_nil_r | constructor]. Qed.

Lemma adds_trans (lo hi : nat) (s1 s2 s3 : State) :
  adds lo hi s1 s2 -> adds lo hi s2 s3 -> adds lo hi s1 s3.
Proof.
  intros (e1 & E1 & F1) (e2 & E2 & F2). exists (e1 ++ e2). split.
  - now rewrite E2, E1, app_assoc.
  - apply Forall_app; now split.
Qed.

Lemma adds_weaken (lo hi lo' hi' : nat) (s1 s2 : State) :
  adds lo hi s1 s2 -> lo' <= lo -> hi <= hi' -> adds lo' hi' s1 s2.
Proof.
  intros (e & E & F) Hlo Hhi. exists e. split; [exact E|].
  eapply Forall_impl; [|exact F]. simpl; intros; lia.
Qed.

Lemma adds_upto (lo hi n : nat) (s1 s2 : State) :
  adds lo hi s1 s2 -> upto n s1 -> hi <= n -> upto n s2.
Proof.
  intros (e & E & F) U Hhi. unfold upto. rewrite E. apply Forall_app. split; [exact U|].
  eapply Forall_impl; [|exact F]. simpl; intros; lia.
Qed.

Lemma upto_weaken (n m : nat) (st : State) : upto n st -> n <= m -> upto m st.
Proof. intros U Hnm. eapply Forall_impl; [|exact U]. simpl; intros; lia. Qed.

Lemma upto_not_in (n : nat) (st : State) (e : Event) :
  upto n st -> n < phase e -> ~ In e (trace st).
Proof.
  intros U Hlt Hin. unfold upto in U. rewrite Forall_forall in U.
  specialize (U e Hin). lia.
Qed.

(** An event of an earlier phase was there before the extension. *)
Lemma adds_in_before (lo hi : nat) (s1 s2 : State) (e : Event) :
  adds lo hi s1 s2 -> In e (trace s2) -> phase e < lo -> In e (trace s1).
Proof.
  intros (evs & E & F) Hin Hlt. rewrite E in Hin. apply in_app_or in Hin.
  destruct Hin as [Hin|Hin]; [exact Hin|].
  rewrite Forall_forall in F. specialize (F e Hin). lia.
Qed.

Ltac adds_tac :=
  unfold adds; cbn; rewrite <- ?app_assoc; cbn;
  first
    [ exists []; split; [now rewrite app_nil_r | constructor]
    | eexists; split; [reflexivity | repeat constructor; cbn; lia] ].

Ltac unfold_m :=
  unfold run, subprocess_run, exists_, except_Exception, try_except, finally,
    record, print, modify, get_state, sys_exit, raise, ret, bind, input, lift, set_fs in *.

Lemma check_dependencies_spec (w : World) (st : State) (r : Result bool) (st' : State) :
  check_dependencies w st = (r, st') ->
  fs st' = fs st /\ out st' = out st /\ adds 0 0 st st'
  /\ (r = Val true ->
      cmd_result w (Which "sudo") = Completed
      /\ cmd_result w (Which "update-desktop-database") = Completed)
  /\ (cmd_result w (Which "sudo") = Completed ->
      cmd_result w (Which "update-desktop-database") = Completed -> r = Val true)
  /\ (forall e, r = Raise e -> e = OSError).
Proof.
  unfold check_dependencies, missing_dependencies. unfold_m. destruct st as [f tr o].
  destruct (cmd_result w (Which "sudo"));
    destruct (cmd_result w (Which "update-desktop-database"));
    cbn; intros E; inversion E; subst; cbn;
    (split; [reflexivity|]); (split; [reflexivity|]); (split; [adds_tac|]);
    (split; [intros; try discriminate; auto|]);
    split; intros; try discriminate; auto; congruence.
Qed.

Lemma sudo_validate_spec (w : World) (st : State) (r : Result unit) (st' : State) :
  run w SudoValidate st = (r, st') ->
  fs st' = fs st /\ out st' = out st /\ adds 1 1 st st'
  /\ r = match cmd_result w SudoValidate with
         | Completed => Val tt
         | Failed => Raise CalledProcessError
         | NotStarted => Raise OSError
         end.
Proof.
  unfold_m. destruct st as [f tr o].
  destruct (cmd_result w SudoValidate); cbn; intros E; inversion E; subst; cbn;
    repeat split; adds_tac.
Qed.

(** The reader returns, or raises one of two errors before anything else
    has happened. *)
Lemma installed_in_cases (f : FS) :
  (exists iv, installed_in f = Val iv)
  \/ (exists e, installed_in f = Raise e /\ early_exit e).
Proof.
  unfold installed_in. rewrite get_installed_version_run. cbn [fst].
  destruct (desktop_file_at _ _) as [| | |t|s].
  - left; eexists; reflexivity.
  - right; eexists; split; [reflexivity | now left].
  - left; eexists; reflexivity.
  - right; eexists; split; [reflexivity|]. unfold early_exit.
    right; right; right; right. now exists t.
  - left. apply scan_lines_total.
Qed.

Lemma get_installed_version_installed_in (st : State) :
  get_installed_version DESKTOP_IN st = (installed_in (fs st), st).
Proof.
  unfold installed_in. now rewrite !get_installed_version_run.
Qed.

Lemma fetch_latest_info_spec (w : World) (pl : string) (st : State)
    (r : Result (string * string)) (st' : State) :
  fetch_latest_info w pl st = (r, st') ->
  fs st' = fs st /\ out st' = out st /\ adds 2 2 st st'
  /\ match r with
     | Val (url, latest) => api w = ApiJson (Some url) /\ latest = extract_version url
     | Raise e => is_Exception e = true /\ forall url, api w <> ApiJson (Some url)
     end.
Proof.
  unfold fetch_latest_info. unfold_m. destruct st as [f tr o].
  destruct (api w) as [t|t|[url|]]; cbn; intros E; inversion E; subst; cbn;
    repeat split; try adds_tac; intros; discriminate.
Qed.

Lemma backup_spec (w : World) (st : State) (r : Result bool) (st' : State) :
  backup_existing_install w INSTALL_DIR BACKUP_DIR st = (r, st') ->
  (exists b, r = Val b)
  /\ install_dir (fs st') = install_dir (fs st)
  /\ temp_files (fs st') = temp_files (fs st)
  /\ out st' = out st /\ adds 3 3 st st'.
Proof.
  unfold backup_existing_install. unfold_m.
  destruct st as [[i b l t s] tr o]. cbn.
  destruct i as [tree|]; destruct b as [bs|]; cbn;
    destruct (cmd_result w (Mkdir_p BACKUP_DIR));
    destruct (cmd_result w (Cp_R INSTALL_DIR (BackupDest (now w))));
    cbn; intros E; inversion E; subst; cbn;
    (split; [eexists; reflexivity|]); repeat split; adds_tac.
Qed.

Lemma input_spec (w : World) (p : string) (st : State) (r : Result string) (st' : State) :
  input w p st = (r, st') ->
  fs st' = fs st /\ out st' = out st /\ adds 4 4 st st'
  /\ r = match stdin w with Some line => Val line | None => Raise EOFError end.
Proof.
  unfold_m. destruct st as [f tr o].
  destruct (stdin w); cbn; intros E; inversion E; subst; cbn; repeat split; adds_tac.
Qed.

Lemma download_spec (w : World) (url : string) (st : State)
    (r : Result (option Path)) (st' : State) :
  download_appimage w url st = (r, st') ->
  install_dir (fs st') = install_dir (fs st)
  /\ out st' = out st /\ adds 5 5 st st'
  /\ ((r = Val None
       /\ (download w = TempFileFails -> temp_files (fs st') = temp_files (fs st))
       /\ (download w <> TempFileFails ->
           temp_files (fs st') = tmp_name w :: temp_files (fs st))
       /\ download w <> Downloaded)
      \/ (r = Val (Some (TempFile (tmp_name w)))
          /\ temp_files (fs st') = tmp_name w :: temp_files (fs st)
          /\ download w = Downloaded)).
Proof.
  unfold download_appimage. unfold_m. destruct st as [[i b l t s] tr o].
  destruct (download w); cbn; intros E; inversion E; subst; cbn;
    (split; [reflexivity|]); (split; [reflexivity|]); (split; [adds_tac|]);
    first [ left; repeat split; intros; congruence
          | right; repeat split; intros; congruence ].
Qed.

(** Case analysis on the oracle, in the order in which the code asks. *)
Ltac ask w :=
  repeat
    (cbn;
     match goal with
     | |- context [mkdtemp_ok w] => destruct (mkdtemp_ok w)
     | H : extracted w = _ |- context [extracted w] => rewrite H
     | |- context [extracted w] => destruct (extracted w) as [[? [?|]]|] eqn:?
     | |- context [cmd_result w ?c] => destruct (cmd_result w c)
     | |- context [desktop_dir_exists w] => destruct (desktop_dir_exists w)
     | |- context [unlink_ok w] => destruct (unlink_ok w)
     end).

Lemma install_spec (w : World) (p : Path) (st : State) (r : Result bool) (st' : State) :
  extract_and_install w p INSTALL_DIR st = (r, st') ->
  (exists b, r = Val b /\ (extracted w = None -> b = false))
  /\ temp_files (fs st') = temp_files (fs st)
  /\ out st' = out st /\ adds 6 8 st st'
  /\ (extracted w = None ->
      install_dir (fs st') = install_dir (fs st) /\ adds 6 6 st st').
Proof.
  unfold extract_and_install. unfold_m. destruct st as [[i b l t s] tr o].
  destruct i as [tree|]; ask w; cbn;
    intros E; inversion E; subst; clear E; cbn;
    (split; [eexists; split; [reflexivity | intros; congruence]|]);
    (split; [reflexivity|]); (split; [reflexivity|]); (split; [adds_tac|]);
    intros Hx; first [discriminate Hx | split; [reflexivity | adds_tac]].
Qed.

Lemma relink_spec (w : World) (st : State) (r : Result bool) (st' : State) :
  update_symlinks_and_db w INSTALL_DIR SYMLINK st = (r, st') ->
  (exists b, r = Val b)
  /\ install_dir (fs st') = install_dir (fs st)
  /\ temp_files (fs st') = temp_files (fs st)
  /\ out st' = out st /\ adds 9 9 st st'.
Proof.
  unfold update_symlinks_and_db. unfold_m. destruct st as [[i b l t s] tr o].
  destruct l as [target|]; cbn;
    destruct (cmd_result w (Rm_f SYMLINK)); cbn;
    destruct (cmd_result w (Ln_sf AppRun SYMLINK)); cbn;
    destruct (desktop_dir_exists w); cbn;
    destruct (cmd_result w (UpdateDesktopDatabase DesktopDir)); cbn;
    intros E; inversion E; subst; cbn;
    (split; [eexists; reflexivity|]); repeat split; adds_tac.
Qed.

Lemma cleanup_spec (w : World) (p : Path) (st : State) (r : Result unit) (st' : State) :
  except_Exception (unlink w p) (ret tt) st = (r, st') ->
  r = Val tt
  /\ install_dir (fs st') = install_dir (fs st)
  /\ out st' = out st /\ adds 10 10 st st'.
Proof.
  unfold unlink. unfold_m. destruct st as [[i b l t s] tr o].
  destruct (unlink_ok w); destruct p; cbn; intros E; inversion E; subst; cbn;
    repeat split; adds_tac.
Qed.

Lemma print_spec (line : string) (st : State) :
  print line st = (Val tt, mkState (fs st) (trace st) (out st ++ [line])).
Proof. reflexivity. Qed.

Lemma try_except_inv {A} (c : M A) (h : Exn -> option (M A)) (st : State)
    (r : Result A) (st' : State) :
  try_except c h st = (r, st') ->
  (exists a, c st = (Val a, st') /\ r = Val a)
  \/ (exists e st1, c st = (Raise e, st1)
        /\ ((h e = None /\ r = Raise e /\ st' = st1)
            \/ (exists k, h e = Some k /\ k st1 = (r, st')))).
Proof.
  unfold try_except. destruct (c st) as [[a|e] st1]; intros E.
  - left; exists a. now inversion E.
  - right; exists e, st1. split; [reflexivity|].
    destruct (h e) as [k|].
    + right; now exists k.
    + left. now inversion E.
Qed.

Lemma upto_initial (n : nat) (f : FS) : upto n (initial f).
Proof. constructor. Qed.

(** An event outside the phases of an extension was there before it. *)
Lemma adds_in_outside (lo hi : nat) (s1 s2 : State) (e : Event) :
  adds lo hi s1 s2 -> In e (trace s2) -> phase e < lo \/ hi < phase e ->
  In e (trace s1).
Proof.
  intros (evs & E & F) Hin Hout. rewrite E in Hin. apply in_app_or in Hin.
  destruct Hin as [Hin|Hin]; [exact Hin|].
  rewrite Forall_forall in F. specialize (F e Hin). lia.
Qed.

Lemma sudo_step (w : World) (st : State) (r : Result unit) (st' : State) :
  try_except (run w SudoValidate)
    (fun e => match e with
              | CalledProcessError => Some (sys_exit "This script requires sudo privileges")
              | _ => None
              end) st = (r, st') ->
  fs st' = fs st /\ out st' = out st /\ adds 1 1 st st'
  /\ ((r = Val tt /\ cmd_result w SudoValidate = Completed)
      \/ ((exists e, r = Raise e /\ early_exit e)
          /\ cmd_result w SudoValidate <> Completed)).
Proof.
  unfold_m. destruct st as [f tr o].
  destruct (cmd_result w SudoValidate); cbn; intros E; inversion E; subst; cbn;
    (split; [reflexivity|]); (split; [reflexivity|]); (split; [adds_tac|]);
    first [ left; split; [reflexivity | congruence]
          | right; split; [|congruence]; eexists; split; [reflexivity|];
            unfold early_exit; tauto ].
Qed.

Lemma fetch_step (w : World) (st : State) (r : Result (string * string)) (st' : State) :
  try_except (fetch_latest_info w PLATFORM)
    (fun e => if is_Exception e
              then Some (sys_exit ("Failed to fetch latest version info: " ++ exn_text e)%string)
              else None) st = (r, st') ->
  fs st' = fs st /\ out st' = out st /\ adds 2 2 st st'
  /\ ((exists url, r = Val (url, extract_version url) /\ api w = ApiJson (Some url))
      \/ ((exists e, r = Raise e /\ early_exit e)
          /\ forall url, api w <> ApiJson (Some url))).
Proof.
  unfold fetch_latest_info. unfold_m. destruct st as [f tr o].
  destruct (api w) as [t|t|[url|]]; cbn; intros E; inversion E; subst; cbn;
    (split; [reflexivity|]); (split; [reflexivity|]); (split; [adds_tac|]);
    first [ left; eexists; split; reflexivity
          | right; split; [|intros; discriminate]; eexists; split; [reflexivity|];
            unfold early_exit; right; right; right; left; eexists; reflexivity ].
Qed.

(** Step 4 of [main]: the backup and, when it fails, the confirmation. *)
Lemma backup_step (w : World) (nb : bool) (st : State) (r : Result unit) (st' : State) :
  (if negb nb && path_exists w (fs st) INSTALL_DIR then
     ok <- backup_existing_install w INSTALL_DIR BACKUP_DIR ;;
     if negb ok then
       answer <- input w BACKUP_PROMPT ;;
       if negb (PyStr.lower answer =? "y")%string then sys_exit "Update aborted"
       else ret tt
     else ret tt
   else ret tt) st = (r, st') ->
  install_dir (fs st') = install_dir (fs st)
  /\ temp_files (fs st') = temp_files (fs st)
  /\ out st' = out st
  /\ ((r = Val tt
       /\ (adds 3 3 st st'
           \/ (adds 3 4 st st'
               /\ exists answer, stdin w = Some answer /\ PyStr.lower answer = "y")))
      \/ (adds 3 4 st st'
          /\ ((stdin w = None /\ r = Raise EOFError)
              \/ (exists answer, stdin w = Some answer /\ PyStr.lower answer <> "y"
                                 /\ r = Raise (SystemExit "Update aborted"))))).
Proof.
  unfold backup_existing_install. unfold_m. destruct st as [[i b l t s] tr o].
  destruct nb; destruct i as [tree|]; destruct b as [bs|]; cbn;
    try (intros E; inversion E; subst; cbn;
         (split; [reflexivity|]); (split; [reflexivity|]); (split; [reflexivity|]);
         left; split; [reflexivity | left; adds_tac]);
    ask w;
    try (destruct (stdin w) as [answer|] eqn:Hin; cbn;
         [ destruct (PyStr.lower answer =? "y")%string eqn:Hy; cbn | ]);
    intros E; inversion E; subst; cbn;
    (split; [reflexivity|]); (split; [reflexivity|]); (split; [reflexivity|]);
    first
      [ left; split; [reflexivity | left; adds_tac]
      | left; split; [reflexivity|]; right; split; [adds_tac|];
        exists answer; split; [reflexivity | now apply String.eqb_eq]
      | right; split; [adds_tac|]; left; split; reflexivity
      | right; split; [adds_tac|]; right; exists answer;
        split; [reflexivity | split; [now apply String.eqb_neq | reflexivity]] ].
Qed.

Section OrchestratorFacts.
Context `{PackagingVersion}.

Lemma print_report_run (iv : option string) (latest : string) (st : State) :
  match iv with
  | Some (String c s) =>
      if (latest =? "Unknown")%string
      then print (report_latest_unknown (String c s))
      else print (report_update_available (String c s) latest)
  | _ => print (report_not_installed latest)
  end st = (Val tt, mkState (fs st) (trace st) (out st ++ [check_report iv latest])).
Proof.
  unfold check_report. destruct iv as [[|c s]|]; try reflexivity.
  destruct (latest =? "Unknown")%string; reflexivity.
Qed.

(** Steps 5 to 8 of [main]. *)
Lemma tail_cases (w : World) (url latest : string) (st : State)
    (r : Result Return) (st' : State) :
  (appimage <- download_appimage w url ;;
   match appimage with
   | None => sys_exit "Download failed"
   | Some appimage_path =>
       installed_ok <- extract_and_install w appimage_path INSTALL_DIR ;;
       if negb installed_ok then sys_exit "Installation failed" else
       _ <- update_symlinks_and_db w INSTALL_DIR SYMLINK ;;
       except_Exception (unlink w appimage_path) (ret tt) ;;
       print (String PyStr.LF "✓ Cursor has been upgraded to version " ++ latest)%string ;;
       print "  Run `cursor` to launch" ;;
       ret Upgraded
   end) st = (r, st') ->
  adds 5 10 st st'
  /\ ((r = Raise (SystemExit "Download failed")
       /\ install_dir (fs st') = install_dir (fs st)
       /\ out st' = out st /\ adds 5 5 st st'
       /\ download w <> Downloaded
       /\ (download w <> TempFileFails -> In (tmp_name w) (temp_files (fs st'))))
      \/ (r = Raise (SystemExit "Installation failed")
          /\ download w = Downloaded
          /\ In (tmp_name w) (temp_files (fs st'))
          /\ out st' = out st /\ adds 5 8 st st'
          /\ (extracted w = None ->
              install_dir (fs st') = install_dir (fs st) /\ adds 5 6 st st'))
      \/ (r = Val Upgraded /\ download w = Downloaded /\ extracted w <> None)).
Proof.
  intros E.
  apply bind_inv in E. destruct E as [(appimage & s1 & C1 & E) | (e & C1 & ->)];
    apply download_spec in C1;
    destruct C1 as (I1 & O1 & T1 & [(R1 & K1 & K1' & D1) | (R1 & K1 & D1)]);
    try discriminate.
  - (* the download failed *)
    inversion R1; subst appimage. unfold sys_exit, raise in E. inversion E; subst.
    split; [eapply adds_weaken; [exact T1 | lia | lia]|].
    left. repeat split; auto.
    intros Hd. rewrite (K1' Hd). now left.
  - inversion R1; subst appimage. clear R1.
    apply bind_inv in E. destruct E as [(ok & s2 & C2 & E) | (e & C2 & ->)];
      apply install_spec in C2; destruct C2 as ((b & R2 & B2) & K2 & O2 & T2 & X2);
      try discriminate.
    inversion R2; subst b. clear R2.
    assert (T12 : adds 5 8 st s2).
    { apply adds_trans with s1;
        [eapply adds_weaken; [exact T1|lia|lia] | eapply adds_weaken; [exact T2|lia|lia]]. }
    destruct ok; cbn [negb] in E.
    + (* installed: relink, cleanup, banner *)
      apply bind_inv in E. destruct E as [(lk & s3 & C3 & E) | (e & C3 & ->)];
        apply relink_spec in C3; destruct C3 as ((b & R3) & I3 & K3 & O3 & T3);
        try discriminate.
      apply bind_inv in E. destruct E as [(u & s4 & C4 & E) | (e & C4 & ->)];
        apply cleanup_spec in C4; destruct C4 as (R4 & I4 & O4 & T4);
        try discriminate.
      unfold print, modify, bind, ret in E. inversion E; subst. cbn.
      split.
      * destruct T12 as (e1 & E1 & F1), T3 as (e3 & E3 & F3), T4 as (e4 & E4 & F4).
        exists (e1 ++ e3 ++ e4). split.
        -- cbn. rewrite E4, E3, E1. now rewrite <- !app_assoc.
        -- repeat (apply Forall_app; split);
             (eapply Forall_impl; [|eassumption]); cbn; intros; lia.
      * right; right. repeat split; auto.
        intros Hx. specialize (B2 Hx). discriminate.
    + (* the installation failed *)
      unfold sys_exit, raise in E. inversion E; subst.
      split; [eapply adds_weaken; [exact T12 | lia | lia]|].
      right; left. repeat split; auto.
      * rewrite K2, K1. now left.
      * congruence.
      * match goal with Hx : extracted w = None |- _ => destruct (X2 Hx) as [I2 _] end.
        congruence.
      * match goal with Hx : extracted w = None |- _ => destruct (X2 Hx) as [_ T2'] end.
        apply adds_trans with s1;
          [eapply adds_weaken; [exact T1|lia|lia] | eapply adds_weaken; [exact T2'|lia|lia]].
Qed.


Lemma main_cases (args : Args) (w : World) (f : FS) (r : Result Return) (st' : State) :
  main args w (initial f) = (r, st') ->
  ((exists e, r = Raise e /\ early_exit e)
   /\ (~ prelude_ok w \/ exists e, installed_in f = Raise e)
   /\ fs st' = f /\ out st' = [] /\ upto 2 st')
  \/ exists iv url,
       installed_in f = Val iv /\ api w = ApiJson (Some url) /\ prelude_ok w
       /\ ((already_up_to_date iv (extract_version url) (force args) = true
            /\ r = Val UpToDate /\ fs st' = f /\ out st' = [] /\ upto 2 st')
           \/ (already_up_to_date iv (extract_version url) (force args) = false
               /\ check args = true
               /\ r = Val CheckOnly /\ fs st' = f
               /\ out st' = [check_report iv (extract_version url)] /\ upto 2 st')
           \/ (already_up_to_date iv (extract_version url) (force args) = false
               /\ check args = false
               /\ pipeline_outcome w f r st')).
Proof.
  unfold main. intros E.
  (* dependencies *)
  apply bind_inv in E. destruct E as [(deps & s1 & C1 & E) | (e & C1 & ->)].
  2:{ apply check_dependencies_spec in C1.
      destruct C1 as (F1 & O1 & T1 & _ & D1' & X1).
      left. split; [exists e; split; [reflexivity|]; left; now apply X1|].
      split; [left; intros (A & B & _); specialize (D1' A B); discriminate|].
      repeat split; auto. eapply adds_upto; [exact T1 | apply upto_initial | lia]. }
  apply check_dependencies_spec in C1. destruct C1 as (F1 & O1 & T1 & D1 & D1' & _).
  assert (U1 : upto 2 s1) by (eapply adds_upto; [exact T1 | apply upto_initial | lia]).
  cbn in F1, O1.
  destruct deps; cbn [negb] in E.
  2:{ unfold sys_exit, raise in E. injection E as Er Es; subst r st'. left.
      split; [eexists; split; [reflexivity|]; unfold early_exit; tauto|].
      split; [|repeat split; auto].
      left. intros (A & B & _). specialize (D1' A B). discriminate. }
  destruct (D1 eq_refl) as [W1 W2]. clear D1 D1' T1.
  (* sudo *)
  apply bind_inv in E. destruct E as [(u & s2 & C2 & E) | (e & C2 & ->)].
  2:{ apply sudo_step in C2.
      destruct C2 as (F2 & O2 & T2 & [(R2 & _) | ((e2 & R2 & X2) & W3)]); [discriminate|].
      injection R2 as ->.
      left. split; [eauto|]. split; [left; intros (_ & _ & A3 & _); congruence|].
      repeat split; try congruence.
      eapply adds_upto; [exact T2 | exact U1 | lia]. }
  apply sudo_step in C2.
  destruct C2 as (F2 & O2 & T2 & [(R2 & W3) | ((e' & R2 & _) & _)]); [|discriminate].
  assert (U2 : upto 2 s2) by (eapply adds_upto; [exact T2 | exact U1 | lia]).
  clear T2 U1.
  (* installed version *)
  assert (Ff : fs s2 = f) by congruence.
  assert (Of : out s2 = []) by congruence.
  apply bind_inv in E. destruct E as [(iv & s3 & C3 & E) | (e & C3 & ->)];
    rewrite get_installed_version_installed_in, Ff in C3.
  2:{ injection C3 as Hiv Es; subst st'.
      destruct (installed_in_cases f) as [(iv' & Hiv') | (e' & Hiv' & X3)];
        rewrite Hiv' in Hiv; [discriminate|]. injection Hiv as ->.
      left. split; [eauto|]. split; [right; eauto|].
      repeat split; auto. }
  injection C3 as Hiv Es; subst s3.
  (* latest version *)
  apply bind_inv in E. destruct E as [(info & s4 & C4 & E) | (e & C4 & ->)];
    apply fetch_step in C4;
    destruct C4 as (F4 & O4 & T4 & [(url & R4 & A4) | ((e' & R4 & X4) & A4)]);
    try discriminate.
  2:{ injection R4 as ->.
      left. split; [eauto|]. split; [left; intros (_ & _ & _ & (u0 & A)); now apply (A4 u0)|].
      repeat split; try congruence.
      eapply adds_upto; [exact T4 | exact U2 | lia]. }
  injection R4 as Ei; subst info. cbn beta iota in E.
  assert (U4 : upto 2 s4) by (eapply adds_upto; [exact T4 | exact U2 | lia]).
  assert (Pok : prelude_ok w) by (repeat split; eauto).
  right. exists iv, url. split; [exact Hiv|]. split; [exact A4|]. split; [exact Pok|].
  (* comparison *)
  destruct (already_up_to_date iv (extract_version url) (force args)) eqn:Hup.
  { left. unfold ret in E. injection E as Er Es; subst r st'. repeat split; congruence || auto. }
  right.
  destruct (check args) eqn:Hck.
  { left. apply bind_inv in E. destruct E as [(u1 & s5 & C5 & E) | (e & C5 & ->)];
      rewrite print_report_run in C5; [|discriminate].
    injection C5 as _ Es; subst s5.
    unfold ret in E. injection E as Er Es; subst r st'. cbn.
    repeat split; try congruence.
    - rewrite O4, Of. reflexivity.
    - exact U4. }
  right. split; [reflexivity|]. split; [reflexivity|].
  (* backup *)
  apply bind_inv in E. destruct E as [(inst & s5 & C5 & E) | (e & C5 & ->)];
    unfold exists_, bind, get_state, ret in C5; [|discriminate].
  injection C5 as Ei Es; subst inst s5.
  apply bind_inv in E. destruct E as [(u1 & s6 & C6 & E) | (e & C6 & ->)];
    apply backup_step in C6; destruct C6 as (I6 & K6 & O6 & C6).
  2:{ (* refused *)
      destruct C6 as [(R6 & _) | (T6 & C6)]; [discriminate|].
      left. repeat split; try congruence.
      - eapply adds_upto; [exact T6 | eapply upto_weaken; [exact U4 | lia] | lia].
      - destruct C6 as [(Hs & R6) | (answer & Hs & Hy & R6)].
        + left. injection R6 as ->. now split.
        + right. injection R6 as ->. exists answer. repeat split; auto. }
  destruct C6 as [(R6 & C6) | (_ & [(_ & R6) | (answer & _ & _ & R6)])];
    try discriminate.
  assert (Pa : prompt_accepted w s6).
  { intros p Hin. destruct C6 as [T6 | (T6 & Hans)]; [|exact Hans].
    exfalso. eapply (upto_not_in 2 s4); [exact U4 | | eapply adds_in_outside;
      [exact T6 | exact Hin | cbn; lia]]. cbn; lia. }
  assert (U6 : upto 4 s6).
  { destruct C6 as [T6 | (T6 & _)];
      (eapply adds_upto; [exact T6 | eapply upto_weaken; [exact U4 | lia] | lia]). }
  clear C6.
  (* download, install, relink, cleanup *)
  apply tail_cases in E. destruct E as (T7 & C7).
  right. split.
  { intros p Hin. apply (Pa p).
    eapply adds_in_outside; [exact T7 | exact Hin | cbn; lia]. }
  destruct C7 as [(R7 & I7 & O7 & T7' & D7 & K7)
                 | [(R7 & D7 & K7 & O7 & T7' & X7) | (R7 & D7 & X7)]].
  - left. repeat split; try congruence; try exact K7.
    eapply adds_upto; [exact T7' | eapply upto_weaken; [exact U6 | lia] | lia].
  - right; left. repeat split; try congruence.
    + eapply adds_upto; [exact T7' | eapply upto_weaken; [exact U6 | lia] | lia].
    + match goal with Hx : extracted w = None |- _ => destruct (X7 Hx) as [I7 _] end.
      congruence.
    + match goal with Hx : extracted w = None |- _ => destruct (X7 Hx) as [_ T7''] end.
      eapply adds_upto; [exact T7'' | eapply upto_weaken; [exact U6 | lia] | lia].
  - right; right. repeat split; auto.
Qed.

End OrchestratorFacts.

(** ** The pipeline as a whole *)

Lemma script_status `{PackagingVersion} (args : Args) (w : World) (st : State)
    (e : Exn) (st' : State) :
  main args w st = (Raise e, st') -> fst (script args w st) = 1.
Proof. unfold script. intros ->. destruct e; reflexivity. Qed.



Lemma early_exit_not_install (e : Exn) :
  early_exit e -> e <> SystemExit "Installation failed".
Proof.
  intros [->|[->|[->|[(t & ->)|(t & ->)]]]]; discriminate.
Qed.

Section PipelineClaims.
Context `{PackagingVersion}.



(** C5.  The install directory changes only in a run that is not check-only
    and in which an update is needed.  In particular it is unchanged after
    an up-to-date run, after a check-only run, and after every run that
    aborts with anything but a failed installation. *)
Theorem install_dir_frame (args : Args) (w : World) (f : FS)
    (r : Result Return) (st' : State) :
  main args w (initial f) = (r, st') ->
  (install_dir (fs st') <> install_dir f ->
   check args = false
   /\ exists iv url,
        installed_in f = Val iv /\ api w = ApiJson (Some url)
        /\ update_needed iv (extract_version url) (force args) = true)
  /\ (r = Val UpToDate -> install_dir (fs st') = install_dir f)
  /\ (check args = true -> install_dir (fs st') = install_dir f)
  /\ (forall e, r = Raise e -> e <> SystemExit "Installation failed" ->
      install_dir (fs st') = install_dir f).
Proof.
  intros E. apply main_cases in E.
  destruct E as [((e & -> & _) & _ & F & _)
                | (iv & url & Hiv & Ha & _ &
                   [(_ & -> & F & _) | [(_ & _ & -> & F & _) | (Hup & Hc & P)]])].
  1-3: rewrite F; repeat split; intros; try reflexivity; congruence.
  split; [|split; [|split]].
  - intros _. split; [exact Hc|]. exists iv, url. repeat split; auto.
    unfold update_needed. now rewrite Hup.
  - intros ->.
    unfold pipeline_outcome in P.
    unfold pipeline_outcome in P.
  destruct P as [(_ & _ & _ & _ & [(_ & R) | (a & _ & _ & R)])
                  | (_ & [(R & _) | [(R & _) | (R & _)]])]; discriminate.
  - congruence.
  - intros e -> Hne.
    unfold pipeline_outcome in P.
    unfold pipeline_outcome in P.
  destruct P as [(I & _) | (_ & [(_ & I & _) | [(R & _) | (R & _)]])];
      try exact I; try discriminate.
    injection R as ->. contradiction.
Qed.

(** C6.  When the extraction step runs and leaves no squashfs-root, the
    run exits with ["Installation failed"] and status 1, the install
    directory is as it was, the old installation was never removed, and no
    command of the relink step was run. *)
Theorem extraction_failure_aborts (args : Args) (w : World) (f : FS)
    (r : Result Return) (st' : State) (appimage : Path) :
  main args w (initial f) = (r, st') ->
  In (Ran (AppimageExtract appimage)) (trace st') ->
  extracted w = None ->
  r = Raise (SystemExit "Installation failed")
  /\ fst (script args w (initial f)) = 1
  /\ install_dir (fs st') = install_dir f
  /\ ~ In (Ran (Rm_rf INSTALL_DIR)) (trace st')
  /\ (forall e, In e (trace st') -> phase e <> 9).
Proof.
  intros E Hrun Hx. pose proof E as E0. apply main_cases in E.
  assert (early : forall n, n < 6 -> upto n st' -> False).
  { intros n Hn U. eapply upto_not_in; [exact U | | exact Hrun]. cbn; lia. }
  destruct E as [(_ & _ & _ & _ & U)
                | (iv & url & _ & _ & _ &
                   [(_ & _ & _ & _ & U) | [(_ & _ & _ & _ & _ & U) | (_ & _ & P)]])];
    try (exfalso; apply (early 2); [lia | assumption]).
  unfold pipeline_outcome in P.
  destruct P as [(_ & _ & _ & U & _)
                | (_ & [(_ & _ & _ & U & _) | [(R & _ & _ & _ & _ & X) | (_ & _ & X)]])].
  - exfalso; apply (early 4); [lia | assumption].
  - exfalso; apply (early 5); [lia | assumption].
  - destruct (X Hx) as [I U]. subst r.
    split; [reflexivity|]. split; [eapply script_status; exact E0|].
    split; [exact I|]. split.
    + eapply upto_not_in; [exact U | cbn; lia].
    + intros e He Hp. eapply upto_not_in; [exact U | | exact He]. lia.
  - contradiction.
Qed.

(** C7.  When the continue-without-backup confirmation is asked (which
    happens exactly after a failed backup) and the answer is not [y], the
    run exits with ["Update aborted"] and status 1; nothing was downloaded,
    and the install directory and the temporary files are as they were. *)
Theorem declined_backup_aborts (args : Args) (w : World) (f : FS)
    (r : Result Return) (st' : State) (answer : string) :
  main args w (initial f) = (r, st') ->
  In (Prompt BACKUP_PROMPT) (trace st') ->
  stdin w = Some answer ->
  PyStr.lower answer <> "y" ->
  r = Raise (SystemExit "Update aborted")
  /\ fst (script args w (initial f)) = 1
  /\ (forall url, ~ In (HttpGet url) (trace st'))
  /\ install_dir (fs st') = install_dir f
  /\ temp_files (fs st') = temp_files f.
Proof.
  intros E Hasked Hin Hno. pose proof E as E0. apply main_cases in E.
  assert (early : upto 2 st' -> False).
  { intros U. eapply upto_not_in; [exact U | | exact Hasked]. cbn; lia. }
  destruct E as [(_ & _ & _ & _ & U)
                | (iv & url & _ & _ & _ &
                   [(_ & _ & _ & _ & U) | [(_ & _ & _ & _ & _ & U) | (_ & _ & P)]])];
    try (exfalso; now apply early).
  unfold pipeline_outcome in P.
  destruct P as [(I & K & _ & U & [(Hn & _) | (a & Ha & _ & R)]) | (Pa & _)].
  - congruence.
  - subst r. split; [reflexivity|]. split; [eapply script_status; exact E0|].
    split; [|split; assumption].
    intros u Hu. eapply upto_not_in; [exact U | | exact Hu]. cbn; lia.
  - exfalso. destruct (Pa _ Hasked) as (a & Ha & Hy). congruence.
Qed.

(** C10.  A check-only run with the force flag, in which the installed and
    the latest version are present, parse and are equal in the version
    order, does not stop at ["Already up to date"]: it reports an available
    update from the installed version to the latest one, which reads
    ["Update available: X → X"] when the two strings are the same. *)
Theorem forced_check_reports_update (args : Args) (w : World) (f : FS)
    (installed url : string) (vi vl : Version) :
  prelude_ok w ->
  check args = true ->
  force args = true ->
  installed_in f = Val (Some installed) ->
  PyStr.truthy (Some installed) = true ->
  api w = ApiJson (Some url) ->
  extract_version url <> "Unknown" ->
  version_parse installed = Some vi ->
  version_parse (extract_version url) = Some vl ->
  version_cmp vi vl = Eq ->
  exists st',
    main args w (initial f) = (Val CheckOnly, st')
    /\ fs st' = f
    /\ out st' = [report_update_available installed (extract_version url)]
    /\ (installed = extract_version url ->
        out st' = [("Update available: " ++ installed ++ " → " ++ installed)%string]).
Proof.
  intros Pok Hck Hf Hiv Hp Ha Hk Hvi Hvl Heq.
  destruct (main args w (initial f)) as [r st'] eqn:E. exists st'.
  apply main_cases in E.
  destruct E as [(_ & Hn & _)
                | (iv & url' & Hiv' & Ha' & _ &
                   [(Hup & _) | [(_ & _ & -> & F & O & _) | (_ & Hc & _)]])].
  - destruct Hn as [Hn | (e & He)]; [contradiction | congruence].
  - exfalso. rewrite Hiv in Hiv'. injection Hiv' as <-.
    rewrite Ha in Ha'. injection Ha' as <-.
    unfold already_up_to_date in Hup. rewrite Hp, Hvi, Hvl, Hf in Hup.
    apply String.eqb_neq in Hk. rewrite Hk in Hup. cbn in Hup.
    rewrite andb_false_r in Hup. discriminate.
  - rewrite Hiv in Hiv'. injection Hiv' as <-.
    rewrite Ha in Ha'. injection Ha' as <-.
    assert (Hr : check_report (Some installed) (extract_version url)
                 = report_update_available installed (extract_version url)).
    { unfold check_report. destruct installed as [|c s]; [discriminate|].
      apply String.eqb_neq in Hk. now rewrite Hk. }
    rewrite Hr in O. repeat split; auto.
    intros Hsame. rewrite O. unfold report_update_available. now rewrite <- Hsame.
  - congruence.
Qed.

(** After a failed installation the downloaded artifact is still on disk. *)
Lemma failed_install_leaves_artifact (args : Args) (w : World) (f : FS) (st' : State) :
  main args w (initial f) = (Raise (SystemExit "Installation failed"), st') ->
  In (tmp_name w) (temp_files (fs st')).
Proof.
  intros E. apply main_cases in E.
  destruct E as [((e & R & X) & _)
                | (iv & url & _ & _ & _ &
                   [(_ & R & _) | [(_ & _ & R & _) | (_ & _ & P)]])];
    try discriminate.
  - injection R as <-. exfalso. now apply (early_exit_not_install _ X).
  - unfold pipeline_outcome in P.
    destruct P as [(_ & _ & _ & _ & [(_ & R) | (a & _ & _ & R)])
                  | (_ & [(R & _) | [(_ & _ & K & _) | (R & _)]])];
      try discriminate; exact K.
Qed.

End PipelineClaims.

(** ** Concrete runs of the pipeline *)

Module Runs.
Import ReleaseOnly.

(** The upgrade from 0.42.0 to 0.43.1 puts the new bundle in place, with
    the sandbox helper owned by root and setuid, and removes the artifact. *)
Example upgrade_result :
  let run := main args_default world_ok (initial fs_0_42_0) in
  fst run = Val Upgraded
  /\ install_dir (fs (snd run))
     = Some (mkTree (Text "X-AppImage-Version=0.43.1") (Some (mkPerm "root:root" "4755")))
  /\ temp_files (fs (snd run)) = [].
Proof. vm_compute. repeat split. Qed.

(** A check of 0.42.0 against 0.43.1 reports the update. *)
Example check_result :
  let run := main args_check world_ok (initial fs_0_42_0) in
  fst run = Val CheckOnly
  /\ out (snd run) = ["Update available: 0.42.0 → 0.43.1"].
Proof. vm_compute. repeat split. Qed.

(** A run in which the test of the metadata file is refused ends after
    [sudo -v] with status 1: the service is not asked and nothing is
    changed. *)
Example refused_reader_result :
  let run := script args_default world_ok (initial fs_inaccessible) in
  fst run = 1
  /\ fs (snd run) = fs_inaccessible
  /\ trace (snd run)
     = [Ran (Which "sudo"); Ran (Which "update-desktop-database"); Ran SudoValidate].
Proof. vm_compute. repeat split. Qed.

End Runs.



Lemma install_dir_frame_witness :
  exists r st',
    @main ReleaseOnly.release_only args_default world_ok (initial fs_0_42_0) = (r, st')
    /\ install_dir (fs st') <> install_dir fs_0_42_0
    /\ check args_default = false
    /\ exists iv url,
         installed_in fs_0_42_0 = Val iv /\ api world_ok = ApiJson (Some url)
         /\ @update_needed ReleaseOnly.release_only iv (extract_version url)
              (force args_default) = true.
Proof.
  eassert (E : @main ReleaseOnly.release_only args_default world_ok (initial fs_0_42_0) = _)
    by (vm_compute; reflexivity).
  do 2 eexists. split; [exact E|].
  assert (Hchanged :
    install_dir (fs (snd (@main ReleaseOnly.release_only args_default world_ok
                            (initial fs_0_42_0)))) <> install_dir fs_0_42_0)
    by (vm_compute; discriminate).
  rewrite E in Hchanged. cbn [snd] in Hchanged.
  split; [exact Hchanged|].
  exact (proj1 (@install_dir_frame ReleaseOnly.release_only _ _ _ _ _ E) Hchanged).
Defined.

Lemma extraction_failure_aborts_witness :
  exists r st',
    @main ReleaseOnly.release_only args_default world_no_payload (initial fs_0_42_0)
    = (r, st')
    /\ In (Ran (AppimageExtract (TempFile (tmp_name world_no_payload)))) (trace st')
    /\ extracted world_no_payload = None
    /\ r = Raise (SystemExit "Installation failed")
    /\ install_dir (fs st') = install_dir fs_0_42_0
    /\ ~ In (Ran (Rm_rf INSTALL_DIR)) (trace st').
Proof.
  eassert (E : @main ReleaseOnly.release_only args_default world_no_payload
                 (initial fs_0_42_0) = _)
    by (vm_compute; reflexivity).
  do 2 eexists. split; [exact E|].
  match goal with
  | |- ?ran /\ _ => assert (Hran : ran)
      by (vm_compute; repeat (first [left; reflexivity | right]))
  end.
  split; [exact Hran|]. split; [reflexivity|].
  destruct (@extraction_failure_aborts ReleaseOnly.release_only _ _ _ _ _ _ E Hran eq_refl)
    as (R & _ & I & N & _).
  split; [exact R|]. split; [exact I | exact N].
Defined.

Lemma declined_backup_aborts_witness :
  exists r st',
    @main ReleaseOnly.release_only args_default world_backup_fails (initial fs_0_42_0)
    = (r, st')
    /\ In (Prompt BACKUP_PROMPT) (trace st')
    /\ stdin world_backup_fails = Some "n"
    /\ r = Raise (SystemExit "Update aborted")
    /\ (forall url, ~ In (HttpGet url) (trace st'))
    /\ install_dir (fs st') = install_dir fs_0_42_0.
Proof.
  eassert (E : @main ReleaseOnly.release_only args_default world_backup_fails
                 (initial fs_0_42_0) = _)
    by (vm_compute; reflexivity).
  do 2 eexists. split; [exact E|].
  match goal with
  | |- ?asked /\ _ => assert (Hasked : asked)
      by (vm_compute; repeat (first [left; reflexivity | right]))
  end.
  split; [exact Hasked|]. split; [reflexivity|].
  assert (Hno : PyStr.lower "n" <> "y") by (vm_compute; discriminate).
  destruct (@declined_backup_aborts ReleaseOnly.release_only _ _ _ _ _ "n"
              E Hasked eq_refl Hno) as (R & _ & D & I & _).
  split; [exact R|]. split; [exact D | exact I].
Defined.

Lemma forced_check_reports_update_witness :
  exists st',
    @main ReleaseOnly.release_only args_force_check world_ok (initial fs_0_43_1)
    = (Val CheckOnly, st')
    /\ out st' = ["Update available: 0.43.1 → 0.43.1"].
Proof.
  assert (Hurl : extract_version
                   "https://downloads.cursor.com/linux/x64/Cursor-0.43.1-x86_64.AppImage"
                 = "0.43.1") by (vm_compute; reflexivity).
  assert (Hinst : installed_in fs_0_43_1 = Val (Some "0.43.1"))
    by (vm_compute; reflexivity).
  destruct (@forced_check_reports_update ReleaseOnly.release_only args_force_check world_ok
              fs_0_43_1 "0.43.1"
              "https://downloads.cursor.com/linux/x64/Cursor-0.43.1-x86_64.AppImage"
              [0; 43; 1]%N [0; 43; 1]%N) as (st' & E & _ & _ & O).
  - repeat split; try reflexivity. eexists; reflexivity.
  - reflexivity.
  - reflexivity.
  - exact Hinst.
  - reflexivity.
  - reflexivity.
  - rewrite Hurl. discriminate.
  - reflexivity.
  - rewrite Hurl. reflexivity.
  - reflexivity.
  - exists st'. split; [exact E|]. apply O. now rewrite Hurl.
Defined.

(** C8 (the code departs from the claim).  Two runs that end with the
    downloaded artifact still on disk: one in which the installation fails
    because the extraction leaves no squashfs-root, and one in which the
    transfer breaks off after the temporary file was created.  Both exit
    with status 1.  The successful upgrade removes the artifact. *)
Theorem artifact_left_on_failure :
  (let run := @script ReleaseOnly.release_only args_default world_no_payload
                (initial fs_0_42_0) in
   fst run = 1 /\ temp_files (fs (snd run)) = [tmp_name world_ok])
  /\ (let run := @script ReleaseOnly.release_only args_default world_transfer_fails
                   (initial fs_0_42_0) in
      fst run = 1 /\ temp_files (fs (snd run)) = [tmp_name world_ok])
  /\ (let run := @script ReleaseOnly.release_only args_default world_ok
                   (initial fs_0_42_0) in
      fst run = 0 /\ temp_files (fs (snd run)) = []).
Proof. vm_compute. repeat split. Qed.

(** ** The version pattern *)

Example extract_version_appimage :
  extract_version "https://downloads.cursor.com/production/linux/x64/Cursor-0.43.1-x86_64.AppImage"
  = "0.43.1".
Proof. reflexivity. Qed.

Example extract_version_none : extract_version "https://example.com/latest" = "Unknown".
Proof. reflexivity. Qed.

Lemma append_assoc (x y z : string) : ((x ++ y) ++ z = x ++ (y ++ z))%string.
Proof. induction x as [|c x IH]; cbn; [reflexivity | now rewrite IH]. Qed.

Lemma append_nil_r (x : string) : (x ++ "")%string = x.
Proof. induction x as [|c x IH]; cbn; [reflexivity | now rewrite IH]. Qed.

Lemma length_append (x y : string) :
  String.length (x ++ y) = String.length x + String.length y.
Proof. induction x as [|c x IH]; cbn; [reflexivity | now rewrite IH]. Qed.

Lemma substring_prefix (m post : string) :
  substring 0 (String.length m) (m ++ post) = m.
Proof.
  induction m as [|c m IH]; cbn.
  - destruct post; reflexivity.
  - now rewrite IH.
Qed.

Lemma substring_middle (pre m post : string) :
  substring (String.length pre) (String.length m) (pre ++ m ++ post) = m.
Proof.
  induction pre as [|c pre IH]; cbn; [apply substring_prefix | exact IH].
Qed.

Lemma last_or_append (d : option ascii) (x : string) (c : ascii) (y : string) :
  last_or d (x ++ String c y) = last_or (Some c) y.
Proof. revert d; induction x as [|a x IH]; intros d; cbn; [reflexivity | apply IH]. Qed.

Lemma last_char_snoc (x : string) (c : ascii) :
  last_char (x ++ String c "") = Some c.
Proof. unfold last_char. now rewrite last_or_append. Qed.

Lemma digit_not_dot (c : ascii) : Re.is_digit c = true -> Re.is_dot c = false.
Proof.
  unfold Re.is_dot. destruct (Ascii.eqb_spec c ".") as [->|]; [|reflexivity].
  intros Hd. vm_compute in Hd. discriminate Hd.
Qed.

Lemma digit_is_word (c : ascii) : Re.is_digit c = true -> Re.is_word c = true.
Proof. unfold Re.is_digit, Re.is_word. cbv zeta. intros ->. reflexivity. Qed.

(** *** Spans *)

Lemma span_append (p : ascii -> bool) (s : string) :
  s = (fst (span p s) ++ snd (span p s))%string.
Proof.
  induction s as [|c s IH]; cbn; [reflexivity|].
  destruct (p c); [|reflexivity].
  destruct (span p s) as [a r]. cbn in *. now rewrite <- IH.
Qed.

Lemma span_all (p : ascii -> bool) (s : string) : all_chars p (fst (span p s)) = true.
Proof.
  induction s as [|c s IH]; cbn; [reflexivity|].
  destruct (p c) eqn:Hc; [|reflexivity].
  destruct (span p s) as [a r]. cbn in *. now rewrite Hc.
Qed.

Lemma span_stops (p : ascii -> bool) (s : string) :
  match snd (span p s) with
  | String c _ => p c = false
  | EmptyString => True
  end.
Proof.
  induction s as [|c s IH]; cbn; [exact I|].
  destruct (p c) eqn:Hc; [|cbn; exact Hc].
  destruct (span p s) as [a r]. exact IH.
Qed.

(** A run of [p] followed by something that does not start with [p] is the
    span. *)
Lemma span_unique (p : ascii -> bool) (a r : string) :
  all_chars p a = true ->
  match r with String c _ => p c = false | EmptyString => True end ->
  span p (a ++ r) = (a, r).
Proof.
  intros Ha Hr. induction a as [|c a IH]; cbn in *.
  - destruct r as [|c r]; [reflexivity|]. cbn. now rewrite Hr.
  - apply andb_true_iff in Ha. destruct Ha as [Hc Ha].
    rewrite Hc, (IH Ha). reflexivity.
Qed.

Lemma last_or_span (p : ascii -> bool) (s : string) (a : ascii) :
  p a = true ->
  exists z, last_or (Some a) (fst (span p s)) = Some z /\ p z = true.
Proof.
  revert a; induction s as [|c s IH]; intros a Ha; cbn.
  - now exists a.
  - destruct (p c) eqn:Hc; [|now exists a].
    destruct (IH c Hc) as (z & Hz & Hpz).
    destruct (span p s) as [x r]. cbn in *. now exists z.
Qed.

(** *** Greedy repetition takes the whole span *)

Lemma star_max {R : Type} (p : ascii -> bool) (k : Re.cursor -> option R) :
  (forall a c n s g, p a = true -> p c = true ->
     k (Re.mkCursor (Some a) n (String c s) g) = None) ->
  forall s a n g, p a = true ->
    Re.star p (Some a) n s g k
    = k (Re.mkCursor (last_or (Some a) (fst (span p s)))
           (n + String.length (fst (span p s))) (snd (span p s)) g).
Proof.
  intros Hk. induction s as [|c s IH]; intros a n g Ha; cbn.
  - now rewrite Nat.add_0_r.
  - destruct (p c) eqn:Hc.
    + rewrite (IH c (S n) g Hc). destruct (span p s) as [x r]. cbn.
      rewrite Nat.add_succ_r.
      destruct (k _) eqn:Hres; [reflexivity|].
      now apply Hk.
    + cbn. now rewrite Nat.add_0_r.
Qed.

Lemma plus_max {R : Type} (p : ascii -> bool) (k : Re.cursor -> option R)
    (pv : option ascii) (n : nat) (s : string) (g : option (nat * nat)) :
  (forall a c n s g, p a = true -> p c = true ->
     k (Re.mkCursor (Some a) n (String c s) g) = None) ->
  Re.run (Re.Plus p) (Re.mkCursor pv n s g) k
  = match span p s with
    | (String c a, r) =>
        k (Re.mkCursor (last_or (Some c) a) (n + String.length (String c a)) r g)
    | (EmptyString, _) => None
    end.
Proof.
  intros Hk. destruct s as [|c s]; cbn; [reflexivity|].
  destruct (p c) eqn:Hc; [|reflexivity].
  rewrite (star_max p k Hk s c (S n) g Hc).
  destruct (span p s) as [a r]. cbn. now rewrite Nat.add_succ_r.
Qed.

(** *** One attempt of the version pattern at a given start *)

Lemma run_seq {R : Type} (r1 r2 : Re.regex) (c : Re.cursor) (k : Re.cursor -> option R) :
  Re.run (Re.Seq r1 r2) c k = Re.run r1 c (fun c' => Re.run r2 c' k).
Proof. reflexivity. Qed.

Lemma run_dot {R : Type} (pv : option ascii) (n : nat) (s : string)
    (g : option (nat * nat)) (k : Re.cursor -> option R) :
  Re.run (Re.Class Re.is_dot) (Re.mkCursor pv n s g) k
  = match dot_then s with
    | Some s' => k (Re.mkCursor (Some "."%char) (S n) s' g)
    | None => None
    end.
Proof.
  destruct s as [|d s]; cbn; [reflexivity|].
  unfold Re.is_dot. destruct (Ascii.eqb_spec d ".") as [->|]; reflexivity.
Qed.

Lemma dot_fails_on_digit {R : Type} (k : Re.cursor -> option R) :
  forall (a c : ascii) (n : nat) (s : string) (g : option (nat * nat)),
    Re.is_digit a = true -> Re.is_digit c = true ->
    (fun c' => Re.run (Re.Class Re.is_dot) c' k) (Re.mkCursor (Some a) n (String c s) g)
    = None.
Proof. intros a c n s g _ Hc. cbn. now rewrite (digit_not_dot c Hc). Qed.

Lemma at_boundary_eq (pv : option ascii) (n : nat) (s : string) (g : option (nat * nat)) :
  Re.at_boundary (Re.mkCursor pv n s g)
  = xorb (is_word_opt pv) (is_word_opt (first_char s)).
Proof. unfold Re.at_boundary, Re.word_before, Re.word_after. destruct pv, s; reflexivity. Qed.

Lemma run_boundary {R : Type} (c : Re.cursor) (k : Re.cursor -> option R) :
  Re.run Re.Boundary c k = if Re.at_boundary c then k c else None.
Proof. reflexivity. Qed.

Lemma run_group {R : Type} (r : Re.regex) (c : Re.cursor) (k : Re.cursor -> option R) :
  Re.run (Re.Group r) c k
  = Re.run r c (fun c' => k (Re.mkCursor (Re.prev c') (Re.pos c') (Re.rest c')
                               (Some (Re.pos c, Re.pos c')))).
Proof. reflexivity. Qed.

Lemma run_digits {R : Type} (k : Re.cursor -> option R)
    (pv : option ascii) (n : nat) (s : string) (g : option (nat * nat)) :
  (forall a c n s g, Re.is_digit a = true -> Re.is_digit c = true ->
     k (Re.mkCursor (Some a) n (String c s) g) = None) ->
  Re.run (Re.Plus Re.is_digit) (Re.mkCursor pv n s g) k
  = match digits_then s with
    | Some (a, r) => k (Re.mkCursor (last_char a) (n + String.length a) r g)
    | None => None
    end.
Proof.
  intros Hk. rewrite (plus_max Re.is_digit k pv n s g Hk). unfold digits_then.
  destruct (span Re.is_digit s) as [[|c a] r]; reflexivity.
Qed.

(** The last character of a run of digits is a digit. *)
Lemma digits_then_last (s a r : string) :
  digits_then s = Some (a, r) ->
  exists z, last_char a = Some z /\ Re.is_digit z = true.
Proof.
  unfold digits_then. destruct s as [|c s]; cbn; [discriminate|].
  destruct (Re.is_digit c) eqn:Hc; [|discriminate].
  destruct (last_or_span Re.is_digit s c Hc) as (z & Hz & Hdz).
  destruct (span Re.is_digit s) as [x y]. cbn in Hz.
  intros E; injection E as <- <-. now exists z.
Qed.

Lemma match_here_version (pv : option ascii) (n : nat) (s : string) :
  option_map Re.grp (Re.match_here VERSION_RE (Re.mkCursor pv n s None))
  = if xorb (is_word_opt pv) (is_word_opt (first_char s)) then
      match triple_prefix s with
      | Some (m, post) =>
          if is_word_opt (first_char post) then None
          else Some (Some (n, n + String.length m))
      | None => None
      end
    else None.
Proof.
  unfold Re.match_here, VERSION_RE, triple_prefix.
  rewrite run_seq, run_boundary, at_boundary_eq.
  destruct (xorb (is_word_opt pv) (is_word_opt (first_char s))); [|reflexivity].
  rewrite run_seq, run_group, run_seq.
  rewrite run_digits by (intros; rewrite run_seq; now apply dot_fails_on_digit).
  destruct (digits_then s) as [[a r1]|]; [|reflexivity].
  cbv beta. rewrite run_seq, run_dot.
  destruct (dot_then r1) as [r1'|]; [|reflexivity].
  cbv beta. rewrite run_seq.
  rewrite run_digits by (intros; rewrite run_seq; now apply dot_fails_on_digit).
  destruct (digits_then r1') as [[b r2]|]; [|reflexivity].
  cbv beta. rewrite run_seq, run_dot.
  destruct (dot_then r2) as [r2'|]; [|reflexivity].
  cbv beta. rewrite run_digits.
  2:{ intros x y m t g Hx Hy. rewrite run_boundary, at_boundary_eq. cbn.
      now rewrite (digit_is_word x Hx), (digit_is_word y Hy). }
  destruct (digits_then r2') as [[c r3]|] eqn:Hc; [|reflexivity].
  cbn [Re.prev Re.pos Re.rest Re.grp].
  rewrite run_boundary, at_boundary_eq.
  destruct (digits_then_last _ _ _ Hc) as (z & Hz & Hdz).
  rewrite Hz. cbn [is_word_opt]. rewrite (digit_is_word z Hdz).
  destruct (is_word_opt (first_char r3)); cbn; [reflexivity|].
  do 3 f_equal. repeat (rewrite length_append; cbn [String.length]). lia.
Qed.

(** *** The scanner against the declarative reading *)

Lemma digits_all (a : string) : digits a = true -> all_chars Re.is_digit a = true.
Proof. destruct a; [discriminate | exact (fun H => H)]. Qed.

Lemma digits_then_sound (s a r : string) :
  digits_then s = Some (a, r) -> s = (a ++ r)%string /\ digits a = true.
Proof.
  unfold digits_then. intros E.
  pose proof (span_append Re.is_digit s) as Hs.
  pose proof (span_all Re.is_digit s) as Ha.
  destruct (span Re.is_digit s) as [[|c x] y]; [discriminate|].
  injection E as <- <-. cbn [fst snd] in *. now split.
Qed.

Lemma digits_then_complete (a r : string) :
  digits a = true ->
  match r with String c _ => Re.is_digit c = false | EmptyString => True end ->
  digits_then (a ++ r) = Some (a, r).
Proof.
  intros Ha Hr. unfold digits_then.
  rewrite (span_unique Re.is_digit a r (digits_all a Ha) Hr).
  destruct a; [discriminate | reflexivity].
Qed.

Lemma dot_then_sound (s s' : string) : dot_then s = Some s' -> s = String "." s'.
Proof.
  destruct s as [|d s]; cbn; [discriminate|].
  unfold Re.is_dot. destruct (Ascii.eqb_spec d ".") as [->|]; [|discriminate].
  now intros E; injection E as ->.
Qed.

Lemma triple_prefix_sound (s m post : string) :
  triple_prefix s = Some (m, post) -> s = (m ++ post)%string /\ is_triple m.
Proof.
  unfold triple_prefix.
  destruct (digits_then s) as [[a r1]|] eqn:E1; [|discriminate].
  destruct (dot_then r1) as [r1'|] eqn:D1; [|discriminate].
  destruct (digits_then r1') as [[b r2]|] eqn:E2; [|discriminate].
  destruct (dot_then r2) as [r2'|] eqn:D2; [|discriminate].
  destruct (digits_then r2') as [[c r3]|] eqn:E3; [|discriminate].
  intros E; injection E as <- <-.
  apply digits_then_sound in E1, E2, E3.
  apply dot_then_sound in D1, D2.
  destruct E1 as [-> Ha], E2 as [-> Hb], E3 as [-> Hc]. subst r1 r2.
  split.
  - rewrite ?append_assoc. cbn [append]. rewrite ?append_assoc. reflexivity.
  - now exists a, b, c.
Qed.

Lemma not_word_not_digit (r : string) :
  is_word_opt (first_char r) = false ->
  match r with String c _ => Re.is_digit c = false | EmptyString => True end.
Proof.
  destruct r as [|c r]; cbn; [trivial|].
  intros Hw. destruct (Re.is_digit c) eqn:Hd; [|reflexivity].
  rewrite (digit_is_word c Hd) in Hw. discriminate.
Qed.

Lemma triple_prefix_complete (m post : string) :
  is_triple m ->
  is_word_opt (first_char post) = false ->
  triple_prefix (m ++ post) = Some (m, post).
Proof.
  intros (a & b & c & -> & Ha & Hb & Hc) Hpost. unfold triple_prefix.
  rewrite ?append_assoc. cbn [append]. rewrite ?append_assoc. cbn [append].
  rewrite (digits_then_complete a _ Ha) by (now vm_compute).
  cbn [dot_then]. change (Re.is_dot ".") with true. cbv iota.
  rewrite (digits_then_complete b _ Hb) by (now vm_compute).
  cbn [dot_then]. change (Re.is_dot ".") with true. cbv iota.
  rewrite (digits_then_complete c post Hc) by (now apply not_word_not_digit).
  reflexivity.
Qed.

(** A triple starts with a digit. *)
Lemma triple_first (m post : string) :
  is_triple m -> is_word_opt (first_char (m ++ post)) = true.
Proof.
  intros (a & b & c & -> & Ha & _). destruct a as [|x a]; [discriminate|].
  cbn in *. apply andb_true_iff in Ha. now apply digit_is_word.
Qed.

Lemma attempt_success (pv : option ascii) (n : nat) (s : string) (c : Re.cursor) :
  Re.match_here VERSION_RE (Re.mkCursor pv n s None) = Some c ->
  exists m post,
    s = (m ++ post)%string /\ is_triple m
    /\ is_word_opt pv = false /\ is_word_opt (first_char post) = false
    /\ Re.grp c = Some (n, n + String.length m).
Proof.
  intros E. pose proof (match_here_version pv n s) as V. rewrite E in V. cbn in V.
  destruct (xorb (is_word_opt pv) (is_word_opt (first_char s))) eqn:Hb; [|discriminate].
  destruct (triple_prefix s) as [[m post]|] eqn:Ht; [|discriminate].
  destruct (is_word_opt (first_char post)) eqn:Hp; [discriminate|].
  injection V as V. apply triple_prefix_sound in Ht. destruct Ht as [-> Hm].
  exists m, post. repeat split; auto.
  rewrite (triple_first m post Hm) in Hb. destruct (is_word_opt pv); [discriminate|reflexivity].
Qed.

Lemma attempt_failure (pv : option ascii) (n : nat) (m post : string) :
  Re.match_here VERSION_RE (Re.mkCursor pv n (m ++ post) None) = None ->
  is_triple m -> is_word_opt pv = false -> is_word_opt (first_char post) = false ->
  False.
Proof.
  intros E Hm Hpv Hpost. pose proof (match_here_version pv n (m ++ post)) as V.
  rewrite E, Hpv, (triple_first m post Hm), (triple_prefix_complete m post Hm Hpost),
    Hpost in V.
  discriminate V.
Qed.

(** *** The search *)

Lemma search_spec (s pre : string) :
  match Re.search_from VERSION_RE (last_char pre) (String.length pre) s with
  | Some c =>
      exists k m post,
        s = (k ++ m ++ post)%string /\ delimited (pre ++ k) m post
        /\ Re.grp c = Some (String.length (pre ++ k),
                            String.length (pre ++ k) + String.length m)
        /\ forall k' m' post',
             s = (k' ++ m' ++ post')%string -> delimited (pre ++ k') m' post' ->
             String.length k <= String.length k'
  | None =>
      forall k m post,
        s = (k ++ m ++ post)%string -> ~ delimited (pre ++ k) m post
  end.
Proof.
  revert pre. induction s as [|a s IH]; intros pre; cbn [Re.search_from].
  - destruct (Re.match_here VERSION_RE _) as [c|] eqn:Hm.
    + apply attempt_success in Hm.
      destruct Hm as (m & post & Hs & Ht & Hpv & Hpost & Hg).
      exists "", m, post. rewrite append_nil_r. repeat split; auto. cbn; lia.
    + intros k m post Hs (Ht & Hpv & Hpost).
      destruct k; [|discriminate]. cbn in Hs. rewrite append_nil_r in Hpv.
      rewrite Hs in Hm. exact (attempt_failure _ _ _ _ Hm Ht Hpv Hpost).
  - destruct (Re.match_here VERSION_RE _) as [c|] eqn:Hm.
    + apply attempt_success in Hm.
      destruct Hm as (m & post & Hs & Ht & Hpv & Hpost & Hg).
      exists "", m, post. rewrite append_nil_r. repeat split; auto. cbn; lia.
    + specialize (IH (pre ++ String a "")%string).
      rewrite last_char_snoc, length_append in IH. cbn [String.length] in IH.
      rewrite Nat.add_1_r in IH.
      assert (Hshift : forall k, ((pre ++ String a "") ++ k = pre ++ String a k)%string)
        by (intros k; now rewrite append_assoc).
      assert (Hhere : forall m post,
                 String a s = (m ++ post)%string -> ~ delimited pre m post).
      { intros m post Hs (Ht & Hpv & Hpost). rewrite Hs in Hm.
        exact (attempt_failure _ _ _ _ Hm Ht Hpv Hpost). }
      destruct (Re.search_from VERSION_RE (Some a) (S (String.length pre)) s) as [c|].
      * destruct IH as (k & m & post & Hs & Hd & Hg & Hmin).
        exists (String a k), m, post. rewrite Hshift in Hd, Hg.
        split; [cbn; now rewrite Hs|]. split; [exact Hd|]. split; [exact Hg|].
        intros k' m' post' Hs' Hd'. destruct k' as [|a' k'].
        -- exfalso. rewrite append_nil_r in Hd'. exact (Hhere m' post' Hs' Hd').
        -- cbn in Hs'. injection Hs' as <- Hs'. cbn.
           apply le_n_S. apply (Hmin k' m' post' Hs'). now rewrite Hshift.
      * intros k m post Hs Hd. destruct k as [|a' k].
        -- rewrite append_nil_r in Hd. exact (Hhere m post Hs Hd).
        -- cbn in Hs. injection Hs as <- Hs.
           apply (IH k m post Hs). now rewrite Hshift.
Qed.

(** C2 (as amended).  For a URL of ASCII characters, [extract_version]
    returns the leftmost occurrence of the pattern [\d+\.\d+\.\d+] that
    has a word boundary on both sides (no letter, digit or underscore
    right before or right after it), and the sentinel ["Unknown"] when the
    URL has no such occurrence.  It is a total function: it never
    raises. *)
Theorem extract_version_spec (url : string) :
  PyStr.isascii url = true ->
  (exists pre m post,
     url = (pre ++ m ++ post)%string
     /\ delimited pre m post
     /\ extract_version url = m
     /\ forall pre' m' post',
          url = (pre' ++ m' ++ post')%string -> delimited pre' m' post' ->
          String.length pre <= String.length pre')
  \/ (extract_version url = "Unknown"
      /\ forall pre m post,
           url = (pre ++ m ++ post)%string -> ~ delimited pre m post).
Proof.
  intros _.
  pose proof (search_spec url "") as S. cbn [last_char last_or String.length append] in S.
  unfold extract_version, Re.search.
  destruct (Re.search_from VERSION_RE None 0 url) as [c|].
  - left. destruct S as (k & m & post & Hs & Hd & Hg & Hmin).
    exists k, m, post. repeat split; try assumption.
    + apply Hd. + apply Hd. + apply Hd.
    + unfold Re.group1. rewrite Hg.
      replace (String.length k + String.length m - String.length k)
        with (String.length m) by lia.
      rewrite Hs. apply substring_middle.
  - right. split; [reflexivity | exact S].
Qed.

Lemma extract_version_spec_witness :
  exists pre m post,
    "https://downloads.cursor.com/linux/x64/Cursor-0.43.1-x86_64.AppImage"
    = (pre ++ m ++ post)%string
    /\ delimited pre m post
    /\ extract_version
         "https://downloads.cursor.com/linux/x64/Cursor-0.43.1-x86_64.AppImage" = m.
Proof.
  destruct (extract_version_spec
              "https://downloads.cursor.com/linux/x64/Cursor-0.43.1-x86_64.AppImage"
              eq_refl)
    as [(pre & m & post & Hs & Hd & He & _) | (Hu & _)].
  - exists pre, m, post. split; [exact Hs|]. split; [exact Hd | exact He].
  - exfalso. vm_compute in Hu. discriminate Hu.
Defined.

(** C2 (as stated) fails: ["1.2.3"] occurs in ["v1.2.3"] and matches the
    pattern, yet the result is the sentinel, because the letter before the
    occurrence leaves no word boundary. *)
Lemma extract_version_unanchored_counterexample :
  "v1.2.3" = ("v" ++ "1.2.3" ++ "")%string
  /\ is_triple "1.2.3"
  /\ extract_version "v1.2.3" = "Unknown".
Proof.
  split; [reflexivity|]. split; [|reflexivity].
  exists "1", "2", "3". repeat split.
Qed.

(** ** More on the version of a download location *)

(** A text that starts with a character that is no digit has no triple at
    its start. *)
Lemma triple_prefix_nondigit (c : ascii) (s : string) :
  Re.is_digit c = false -> triple_prefix (String c s) = None.
Proof. intros Hc. unfold triple_prefix, digits_then. cbn. now rewrite Hc. Qed.

Lemma attempt_nondigit (pv : option ascii) (n : nat) (c : ascii) (s : string) :
  Re.is_digit c = false ->
  Re.match_here VERSION_RE (Re.mkCursor pv n (String c s) None) = None.
Proof.
  intros Hc. pose proof (match_here_version pv n (String c s)) as V.
  rewrite (triple_prefix_nondigit c s Hc) in V.
  destruct (Re.match_here VERSION_RE _); [|reflexivity].
  destruct (xorb _ _); discriminate V.
Qed.

(** The search passes over text without digits. *)
Lemma search_skip (pre s : string) (pv : option ascii) (n : nat) :
  all_chars (fun c => negb (Re.is_digit c)) pre = true ->
  Re.search_from VERSION_RE pv n (pre ++ s)
  = Re.search_from VERSION_RE (last_or pv pre) (n + String.length pre) s.
Proof.
  revert pv n. induction pre as [|c pre IH]; intros pv n Hpre.
  - cbn. now rewrite Nat.add_0_r.
  - cbn in Hpre. apply andb_true_iff in Hpre. destruct Hpre as [Hc Hpre].
    apply negb_true_iff in Hc.
    cbn [append Re.search_from]. rewrite (attempt_nondigit pv n c _ Hc).
    rewrite (IH (Some c) (S n) Hpre). cbn. now rewrite Nat.add_succ_r.
Qed.

Lemma search_here (pv : option ascii) (n : nat) (m post : string) :
  is_triple m -> is_word_opt pv = false -> is_word_opt (first_char post) = false ->
  exists c, Re.search_from VERSION_RE pv n (m ++ post) = Some c
            /\ Re.grp c = Some (n, n + String.length m).
Proof.
  intros Hm Hpv Hpost.
  pose proof (match_here_version pv n (m ++ post)) as V.
  rewrite Hpv, (triple_first m post Hm), (triple_prefix_complete m post Hm Hpost),
    Hpost in V.
  destruct (Re.match_here VERSION_RE (Re.mkCursor pv n (m ++ post) None)) as [c|] eqn:E;
    cbn in V; [|discriminate V].
  exists c. split.
  - destruct (m ++ post)%string; cbn [Re.search_from]; now rewrite E.
  - now injection V.
Qed.

Lemma last_or_none (pre : string) (pv : option ascii) :
  is_word_opt pv = false -> is_word_opt (last_char pre) = false ->
  is_word_opt (last_or pv pre) = false.
Proof.
  intros Hpv Hpre. destruct pre as [|c pre]; [exact Hpv|].
  unfold last_char in Hpre. cbn in *. exact Hpre.
Qed.

Lemma search_finds (pre m post : string) :
  all_chars (fun c => negb (Re.is_digit c)) pre = true ->
  is_word_opt (last_char pre) = false ->
  is_triple m ->
  is_word_opt (first_char post) = false ->
  exists c, Re.search VERSION_RE (pre ++ m ++ post) = Some c
            /\ Re.group1 (pre ++ m ++ post) c = m.
Proof.
  intros Hpre Hlast Hm Hpost. unfold Re.search.
  rewrite (search_skip pre (m ++ post) None 0 Hpre). cbn [Nat.add].
  destruct (search_here (last_or None pre) (String.length pre) m post Hm
              (last_or_none pre None eq_refl Hlast) Hpost) as (c & Hc & Hg).
  exists c. split; [exact Hc|].
  unfold Re.group1. rewrite Hg.
  replace (String.length pre + String.length m - String.length pre)
    with (String.length m) by lia.
  apply substring_middle.
Qed.



Lemma is_triple_nonempty (m : string) : is_triple m -> m <> "".
Proof.
  intros (a & b & c & -> & Ha & _) E. destruct a; [discriminate Ha | discriminate E].
Qed.

Lemma extract_version_of_triple (m : string) : is_triple m -> extract_version m = m.
Proof.
  intros Hm.
  destruct (search_finds "" m "" eq_refl eq_refl Hm eq_refl) as (c & Hc & Hg).
  cbn [append] in Hc, Hg. rewrite append_nil_r in Hc, Hg.
  unfold extract_version. now rewrite Hc.
Qed.

Lemma extract_version_result (url : string) :
  extract_version url = "Unknown" \/ is_triple (extract_version url).
Proof.
  pose proof (search_spec url "") as S. cbn [last_char last_or String.length append] in S.
  unfold extract_version, Re.search.
  destruct (Re.search_from VERSION_RE None 0 url) as [c|]; [|now left].
  right. destruct S as (k & m & post & Hs & (Ht & _) & Hg & _).
  unfold Re.group1. rewrite Hg.
  replace (String.length k + String.length m - String.length k)
    with (String.length m) by lia.
  rewrite Hs, substring_middle. exact Ht.
Qed.

(** X2.  For a URL of ASCII characters the result is the sentinel or a
    triple of numbers, and in every case a non-empty string. *)
Theorem extract_version_shape (url : string) :
  PyStr.isascii url = true ->
  (extract_version url = "Unknown" \/ is_triple (extract_version url))
  /\ extract_version url <> "".
Proof.
  intros _.
  split; [apply extract_version_result|].
  destruct (extract_version_result url) as [E|Ht].
  - rewrite E. discriminate.
  - now apply is_triple_nonempty.
Qed.

Lemma extract_version_shape_witness :
  (extract_version "https://downloads.cursor.com/linux/x64/Cursor-latest.AppImage"
   = "Unknown"
   \/ is_triple
        (extract_version "https://downloads.cursor.com/linux/x64/Cursor-latest.AppImage"))
  /\ extract_version "https://downloads.cursor.com/linux/x64/Cursor-latest.AppImage" <> "".
Proof. apply extract_version_shape. reflexivity. Defined.

(** X3.  Extracting is idempotent: a version that was extracted is read
    back as itself, and so is the sentinel. *)
Theorem extract_version_idempotent (url : string) :
  extract_version (extract_version url) = extract_version url.
Proof.
  destruct (extract_version_result url) as [E|Ht].
  - rewrite E. reflexivity.
  - now apply extract_version_of_triple.
Qed.

(** ** The steps as functions of the oracle *)

(** X4.  [check_dependencies] probes both programs, also when the first
    is missing, and returns whether both were found; it changes nothing.
    Only when a probe itself cannot be run does it raise, and then at
    once. *)
Theorem check_dependencies_result (w : World) (st : State) :
  check_dependencies w st
  = match cmd_result w (Which "sudo"), cmd_result w (Which "update-desktop-database") with
    | NotStarted, _ => (Raise OSError, add_events [Ran (Which "sudo")] st)
    | _, NotStarted =>
        (Raise OSError,
         add_events [Ran (Which "sudo"); Ran (Which "update-desktop-database")] st)
    | _, _ =>
        (Val (dependencies_found w),
         add_events [Ran (Which "sudo"); Ran (Which "update-desktop-database")] st)
    end.
Proof.
  unfold check_dependencies, missing_dependencies, dependencies_found, add_events.
  unfold_m. destruct st as [f tr o].
  destruct (cmd_result w (Which "sudo"));
    destruct (cmd_result w (Which "update-desktop-database"));
    cbn; now rewrite <- ?app_assoc.
Qed.




(** X6.  [download_appimage] never raises.  It returns the path of the
    temporary file exactly when the download completes, and then the file
    exists; when the temporary file cannot be made, no request is sent
    and nothing changes.  In every other failure the temporary file stays
    behind although no path is returned. *)
Theorem download_result (w : World) (url : string) (st : State) :
  let run := download_appimage w url st in
  (fst run = Val (Some (TempFile (tmp_name w))) <-> download w = Downloaded)
  /\ (download w = Downloaded ->
      path_exists w (fs (snd run)) (TempFile (tmp_name w)) = true
      /\ trace (snd run) = trace st ++ [HttpGet url])
  /\ (download w <> Downloaded -> fst run = Val None)
  /\ (download w = TempFileFails -> snd run = st)
  /\ (download w <> TempFileFails ->
      temp_files (fs (snd run)) = tmp_name w :: temp_files (fs st)).
Proof.
  unfold download_appimage. unfold_m. destruct st as [[i b l t s] tr o].
  destruct (download w); cbn;
    repeat split; intros; try congruence; try discriminate;
    now rewrite String.eqb_refl.
Qed.

(** X7.  [extract_and_install] never raises: it returns whether the payload
    was made ready and swapped in.  On success the install directory is
    the extracted payload with its sandbox helper, if any, owned by root
    and setuid.  The extraction directory is gone afterwards in every
    case, and the downloaded artifact is left alone. *)
Theorem install_result (w : World) (appimage : Path) (st : State) :
  let run := extract_and_install w appimage INSTALL_DIR st in
  fst run = Val (install_ok w appimage (install_dir (fs st)))
  /\ (install_ok w appimage (install_dir (fs st)) = true ->
      install_dir (fs (snd run)) = option_map hardened (extracted w))
  /\ (mkdtemp_ok w = true -> scratch (fs (snd run)) = None)
  /\ temp_files (fs (snd run)) = temp_files (fs st).
Proof.
  unfold extract_and_install, install_ok, payload_ready, swap_ok, hardened. unfold_m.
  destruct st as [[i b l t s] tr o].
  destruct i as [tree|]; ask w; cbn;
    repeat split; intros; try discriminate; reflexivity.
Qed.

(** X8.  The old installation is touched only once the payload is ready:
    when the extraction fails, leaves nothing, or the permissions of the
    sandbox helper cannot be set, the function returns [False], the
    install directory is as it was, and neither the removal nor the move
    was run. *)
Theorem install_guard (w : World) (appimage : Path) (st : State) :
  payload_ready w appimage = false ->
  let run := extract_and_install w appimage INSTALL_DIR st in
  fst run = Val false
  /\ install_dir (fs (snd run)) = install_dir (fs st)
  /\ adds 6 7 st (snd run).
Proof.
  unfold extract_and_install, payload_ready. unfold_m.
  destruct st as [[i b l t s] tr o].
  destruct i as [tree|]; ask w; cbn;
    intros Hp; try discriminate Hp;
    (split; [reflexivity|]); (split; [reflexivity|]); adds_tac.
Qed.

Lemma install_guard_witness :
  let run := extract_and_install world_no_payload (TempFile (tmp_name world_ok))
               INSTALL_DIR (initial fs_0_42_0) in
  fst run = Val false
  /\ install_dir (fs (snd run)) = install_dir (fs (initial fs_0_42_0))
  /\ adds 6 7 (initial fs_0_42_0) (snd run).
Proof. apply install_guard. reflexivity. Defined.

(** X9.  There is no rollback: when the payload is ready and the old
    installation was removed but the move does not complete, the function
    returns [False] and the install directory is whatever the move left,
    and nothing at all when the move could not be started. *)
Theorem install_gap (w : World) (appimage : Path) (st : State) (old : Tree) :
  payload_ready w appimage = true ->
  install_dir (fs st) = Some old ->
  cmd_result w (Rm_rf INSTALL_DIR) = Completed ->
  cmd_result w (Mv SquashfsRoot INSTALL_DIR) <> Completed ->
  let run := extract_and_install w appimage INSTALL_DIR st in
  fst run = Val false
  /\ install_dir (fs (snd run))
     = match cmd_result w (Mv SquashfsRoot INSTALL_DIR) with
       | Failed => mv_leaves w
       | _ => None
       end.
Proof.
  unfold extract_and_install, payload_ready. unfold_m.
  destruct st as [[i b l t s] tr o]. cbn [fs install_dir].
  intros Hp -> Hrm Hmv. revert Hp Hmv. rewrite Hrm.
  ask w; cbn; intros Hp Hmv; try discriminate Hp; try congruence; now split.
Qed.

Lemma install_gap_witness :
  let run := extract_and_install world_no_move (TempFile (tmp_name world_ok)) INSTALL_DIR
               (initial fs_0_42_0) in
  fst run = Val false /\ install_dir (fs (snd run)) = None.
Proof.
  apply (install_gap world_no_move (TempFile (tmp_name world_ok)) (initial fs_0_42_0)
           (mkTree (Text "X-AppImage-Version=0.42.0") None)).
  - reflexivity.
  - reflexivity.
  - reflexivity.
  - discriminate.
Defined.

(** X10.  [update_symlinks_and_db] never raises: it returns whether the link
    was replaced and the desktop database, where there is one, refreshed.
    Once the link is replaced it points to the entry point of the
    installation, also when the refresh fails afterwards.  The install
    directory is not touched. *)
Theorem relink_result (w : World) (st : State) :
  let run := update_symlinks_and_db w INSTALL_DIR SYMLINK st in
  fst run = Val (relink_ok w (symlink (fs st)))
  /\ (link_ok w (symlink (fs st)) = true -> symlink (fs (snd run)) = Some AppRun)
  /\ install_dir (fs (snd run)) = install_dir (fs st).
Proof.
  unfold update_symlinks_and_db, relink_ok, link_ok. unfold_m.
  destruct st as [[i b l t s] tr o].
  destruct l as [target|]; ask w; cbn;
    repeat split; intros; try discriminate; reflexivity.
Qed.

(** ** The run up to the comparison *)

Lemma bind_val {A B} (c : M A) (k : A -> M B) (st st1 : State) (a : A) :
  c st = (Val a, st1) -> bind c k st = k a st1.
Proof. unfold bind. now intros ->. Qed.

Lemma bind_raise {A B} (c : M A) (k : A -> M B) (st st1 : State) (e : Exn) :
  c st = (Raise e, st1) -> bind c k st = (Raise e, st1).
Proof. unfold bind. now intros ->. Qed.

Lemma check_dependencies_run (w : World) (st : State) :
  cmd_result w (Which "sudo") <> NotStarted ->
  cmd_result w (Which "update-desktop-database") <> NotStarted ->
  check_dependencies w st
  = (Val (dependencies_found w),
     add_events [Ran (Which "sudo"); Ran (Which "update-desktop-database")] st).
Proof.
  unfold check_dependencies, missing_dependencies, dependencies_found, add_events.
  unfold_m. destruct st as [f tr o].
  destruct (cmd_result w (Which "sudo"));
    destruct (cmd_result w (Which "update-desktop-database"));
    cbn; intros A B; try congruence; now rewrite <- app_assoc.
Qed.

Lemma sudo_run (w : World) (st : State) :
  try_except (run w SudoValidate)
    (fun e => match e with
              | CalledProcessError => Some (sys_exit "This script requires sudo privileges")
              | _ => None
              end) st
  = (match cmd_result w SudoValidate with
     | Completed => Val tt
     | Failed => Raise (SystemExit "This script requires sudo privileges")
     | NotStarted => Raise OSError
     end, add_events [Ran SudoValidate] st).
Proof.
  unfold add_events. unfold_m. destruct st as [f tr o].
  destruct (cmd_result w SudoValidate); reflexivity.
Qed.

Lemma fetch_run (w : World) (st : State) :
  try_except (fetch_latest_info w PLATFORM)
    (fun e => if is_Exception e
              then Some (sys_exit ("Failed to fetch latest version info: " ++ exn_text e)%string)
              else None) st
  = (match api w with
     | ApiJson (Some url) => Val (url, extract_version url)
     | a => Raise (SystemExit
                     ("Failed to fetch latest version info: "
                      ++ match api_error_text a with Some t => t | None => "" end))
     end, add_events [ApiGet PLATFORM] st).
Proof.
  unfold fetch_latest_info, add_events. unfold_m. destruct st as [f tr o].
  destruct (api w) as [t|t|[url|]]; reflexivity.
Qed.

Section ViewFacts.
Context `{PackagingVersion}.

Lemma main_after_sudo (args : Args) (w : World) (f : FS) (iv : option string) :
  dependencies_found w = true ->
  cmd_result w SudoValidate = Completed ->
  installed_in f = Val iv ->
  main args w (initial f)
  = match api w with
    | ApiJson (Some url) =>
        decide args w iv url (extract_version url) (add_events prelude_events (initial f))
    | a => (Raise (SystemExit
                     ("Failed to fetch latest version info: "
                      ++ match api_error_text a with Some t => t | None => "" end)),
            add_events prelude_events (initial f))
    end.
Proof.
  intros Hd Hs Hiv. unfold main.
  assert (W : cmd_result w (Which "sudo") = Completed
              /\ cmd_result w (Which "update-desktop-database") = Completed).
  { unfold dependencies_found in Hd. apply andb_true_iff in Hd.
    destruct (cmd_result w (Which "sudo")), (cmd_result w (Which "update-desktop-database"));
      destruct Hd; try discriminate; now split. }
  destruct W as [W1 W2].
  erewrite bind_val
    by (rewrite check_dependencies_run by congruence; rewrite Hd; reflexivity).
  cbn [negb].
  erewrite bind_val by (rewrite sudo_run, Hs; reflexivity).
  erewrite bind_val
    by (rewrite get_installed_version_installed_in; cbn [fs add_events initial];
        rewrite Hiv; reflexivity).
  destruct (api w) as [t|t|[url|]] eqn:Ha.
  1,2,4: erewrite bind_raise by (rewrite fetch_run, Ha; reflexivity); reflexivity.
  erewrite bind_val by (rewrite fetch_run, Ha; reflexivity).
  reflexivity.
Qed.


End ViewFacts.

Lemma prelude_ok_found (w : World) : prelude_ok w -> dependencies_found w = true.
Proof. intros (A & B & _). unfold dependencies_found. now rewrite A, B. Qed.

Section EarlyExits.
Context `{PackagingVersion}.

(** X11.  A missing dependency ends the run at once: after the two probes,
    [main] exits with the message about the dependencies; sudo is not
    asked, the service is not contacted, nothing is printed or changed. *)
Theorem missing_dependency_aborts (args : Args) (w : World) (f : FS) :
  cmd_result w (Which "sudo") <> NotStarted ->
  cmd_result w (Which "update-desktop-database") <> NotStarted ->
  dependencies_found w = false ->
  main args w (initial f)
  = (Raise (SystemExit "Missing required system dependencies"),
     add_events [Ran (Which "sudo"); Ran (Which "update-desktop-database")] (initial f)).
Proof.
  intros A B Hd. unfold main.
  erewrite bind_val by (rewrite check_dependencies_run by assumption; rewrite Hd; reflexivity).
  reflexivity.
Qed.

(** X12.  When sudo is refused, [main] exits with the message about the
    privileges right after [sudo -v]: the installed version is not read
    and the service is not contacted. *)
Theorem sudo_denied_aborts (args : Args) (w : World) (f : FS) :
  dependencies_found w = true ->
  cmd_result w SudoValidate = Failed ->
  main args w (initial f)
  = (Raise (SystemExit "This script requires sudo privileges"),
     add_events [Ran (Which "sudo"); Ran (Which "update-desktop-database");
                 Ran SudoValidate] (initial f)).
Proof.
  intros Hd Hs. unfold main.
  assert (W : cmd_result w (Which "sudo") <> NotStarted
              /\ cmd_result w (Which "update-desktop-database") <> NotStarted).
  { unfold dependencies_found in Hd.
    destruct (cmd_result w (Which "sudo")), (cmd_result w (Which "update-desktop-database"));
      try discriminate Hd; split; discriminate. }
  destruct W as [W1 W2].
  erewrite bind_val by (rewrite check_dependencies_run by assumption; rewrite Hd; reflexivity).
  cbn [negb].
  erewrite bind_raise by (rewrite sudo_run, Hs; reflexivity).
  reflexivity.
Qed.


(** X14.  With the force flag no run ends at ["Already up to date"],
    whatever the versions are and whether or not they parse. *)
Theorem force_never_up_to_date (args : Args) (w : World) (f : FS)
    (r : Result Return) (st' : State) :
  force args = true ->
  main args w (initial f) = (r, st') ->
  r <> Val UpToDate.
Proof.
  intros Hf E. apply main_cases in E.
  destruct E as [((e & -> & _) & _)
                | (iv & url & _ & _ & _ &
                   [(Hup & _) | [(_ & _ & -> & _) | (_ & _ & P)]])];
    try discriminate.
  - exfalso. unfold already_up_to_date in Hup. rewrite Hf in Hup.
    destruct iv as [i|]; [|discriminate].
    destruct (PyStr.truthy (Some i) && negb (extract_version url =? "Unknown")%string);
      [|discriminate].
    destruct (version_parse i); [destruct (version_parse (extract_version url))|];
      rewrite andb_false_r in Hup; discriminate.
  - unfold pipeline_outcome in P.
    destruct P as [(_ & _ & _ & _ & [(_ & ->) | (a & _ & _ & ->)])
                  | (_ & [(-> & _) | [(-> & _) | (-> & _)]])]; discriminate.
Qed.

(** X15.  Up-to-date and check-only runs are quiet: besides the two probes,
    [sudo -v] and one request to the service they interact with nothing,
    and they leave the file system as it was. *)
Theorem quiet_runs (args : Args) (w : World) (f : FS)
    (r : Result Return) (st' : State) :
  main args w (initial f) = (r, st') ->
  r = Val UpToDate \/ r = Val CheckOnly ->
  trace st' = prelude_events /\ fs st' = f.
Proof.
  intros E Hr. pose proof E as E0. apply main_cases in E.
  destruct E as [((e & -> & _) & _)
                | (iv & url & Hiv & Ha & Pok &
                   [(Hup & _) | [(Hup & Hck & _) | (_ & _ & P)]])].
  - destruct Hr; discriminate.
  - rewrite (main_after_sudo args w f iv (prelude_ok_found w Pok)
               (proj1 (proj2 (proj2 Pok))) Hiv), Ha in E0.
    unfold decide in E0. rewrite Hup in E0. injection E0 as _ <-. now split.
  - rewrite (main_after_sudo args w f iv (prelude_ok_found w Pok)
               (proj1 (proj2 (proj2 Pok))) Hiv), Ha in E0.
    unfold decide in E0. rewrite Hup, Hck in E0.
    erewrite bind_val in E0 by apply print_report_run.
    injection E0 as _ <-. now split.
  - exfalso. unfold pipeline_outcome in P.
    destruct P as [(_ & _ & _ & _ & [(_ & ->) | (a & _ & _ & ->)])
                  | (_ & [(-> & _) | [(-> & _) | (-> & _)]])];
      destruct Hr; discriminate.
Qed.

Lemma not_installed_never_up_to_date (iv : option string) (latest : string) (fc : bool) :
  PyStr.truthy iv = false -> already_up_to_date iv latest fc = false.
Proof.
  unfold already_up_to_date. intros Ht. destruct iv as [i|]; [|reflexivity].
  now rewrite Ht.
Qed.

Lemma unknown_never_up_to_date (iv : option string) (fc : bool) :
  already_up_to_date iv "Unknown" fc = false.
Proof.
  unfold already_up_to_date. destruct iv as [i|]; [|reflexivity].
  cbn. now rewrite andb_false_r.
Qed.

(** X16.  Without an installed version (no metadata file, no version line,
    or an empty version) there is no comparison: a check-only run prints
    the not-installed report with the latest version, and any other run
    goes on with the pipeline as a fresh installation. *)
Theorem not_installed_run (args : Args) (w : World) (f : FS)
    (iv : option string) (url : string) :
  prelude_ok w ->
  api w = ApiJson (Some url) ->
  installed_in f = Val iv ->
  PyStr.truthy iv = false ->
  main args w (initial f)
  = if check args
    then (Val CheckOnly,
          mkState f prelude_events [report_not_installed (extract_version url)])
    else pipeline args w url (extract_version url)
           (add_events prelude_events (initial f)).
Proof.
  intros Pok Ha Hiv Ht.
  rewrite (main_after_sudo args w f iv (prelude_ok_found w Pok)
             (proj1 (proj2 (proj2 Pok))) Hiv), Ha.
  unfold decide. rewrite (not_installed_never_up_to_date iv _ _ Ht).
  destruct (check args); [|reflexivity].
  destruct iv as [[|c s]|]; try discriminate Ht; reflexivity.
Qed.

(** X17.  When the download location carries no version, the latest version
    is the sentinel and there is no comparison: a check-only run with an
    installed version reports that the latest version cannot be
    determined, and any other run goes on with the pipeline. *)
Theorem unknown_latest_run (args : Args) (w : World) (f : FS)
    (installed url : string) :
  prelude_ok w ->
  api w = ApiJson (Some url) ->
  extract_version url = "Unknown" ->
  installed_in f = Val (Some installed) ->
  PyStr.truthy (Some installed) = true ->
  main args w (initial f)
  = if check args
    then (Val CheckOnly, mkState f prelude_events [report_latest_unknown installed])
    else pipeline args w url "Unknown" (add_events prelude_events (initial f)).
Proof.
  intros Pok Ha Hu Hiv Ht.
  rewrite (main_after_sudo args w f _ (prelude_ok_found w Pok)
             (proj1 (proj2 (proj2 Pok))) Hiv), Ha, Hu.
  unfold decide. rewrite unknown_never_up_to_date.
  destruct (check args); [|reflexivity].
  destruct installed as [|c s]; [discriminate Ht | reflexivity].
Qed.

End EarlyExits.

(** ** The pipeline when its steps succeed *)






Section Success.
Context `{PackagingVersion}.


(** X19.  An accepted confirmation lets the run go on: when the user is
    asked after a failed backup and answers [y] in either case, the run
    does not end with ["Update aborted"]; it ends with the upgrade or with
    a failed download or installation. *)
Theorem accepted_prompt_continues (args : Args) (w : World) (f : FS)
    (r : Result Return) (st' : State) (answer : string) :
  main args w (initial f) = (r, st') ->
  In (Prompt BACKUP_PROMPT) (trace st') ->
  stdin w = Some answer ->
  PyStr.lower answer = "y" ->
  r = Val Upgraded
  \/ r = Raise (SystemExit "Download failed")
  \/ r = Raise (SystemExit "Installation failed").
Proof.
  intros E Hasked Hin Hy. apply main_cases in E.
  assert (early : upto 2 st' -> False).
  { intros U. eapply upto_not_in; [exact U | | exact Hasked]. cbn; lia. }
  destruct E as [(_ & _ & _ & _ & U)
                | (iv & url & _ & _ & _ &
                   [(_ & _ & _ & _ & U) | [(_ & _ & _ & _ & _ & U) | (_ & _ & P)]])];
    try (exfalso; now apply early).
  unfold pipeline_outcome in P.
  destruct P as [(_ & _ & _ & _ & [(Hn & _) | (a & Ha & Hno & _)])
                | (_ & [(R & _) | [(R & _) | (R & _)]])]; auto.
  - congruence.
  - exfalso. apply Hno. congruence.
Qed.

End Success.

(** ** The version checker and the updater *)

(** X20.  The checker and the updater agree.  On the same outcome of the
    request (the two differ in their timeouts, which the oracle does not
    show), the checker exits with status 0 exactly when the updater gets
    a download location; it then prints the version that the updater
    compares against (the sentinel included: a location without a version
    is no error) and the location, and nothing on the error stream.
    Otherwise it prints nothing on the standard output, one line on the
    error stream, and exits with status 1. *)
Theorem checker_agrees_with_updater (w : World) (key_error_text : string) (st : State) :
  match fst (fetch_latest_info w PLATFORM st) with
  | Val (url, version) =>
      VersionCheck.main w key_error_text st
      = (0, [],
         mkState (fs st) (trace st ++ [ApiGet PLATFORM])
           (out st ++ [("Latest Cursor version for linux-x64: " ++ version)%string;
                       ("Download URL: " ++ url)%string]))
  | Raise e =>
      exists line,
        VersionCheck.main w key_error_text st
        = (1, [line], mkState (fs st) (trace st ++ [ApiGet PLATFORM]) (out st))
  end.
Proof.
  unfold fetch_latest_info, VersionCheck.main, VersionCheck.fetch_latest_download_url.
  unfold_m. destruct st as [f tr o].
  destruct (api w) as [t|t|[url|]]; cbn.
  1,2,4: eexists; reflexivity.
  now rewrite <- app_assoc.
Qed.

(** ** The order of the interactions *)

Lemma in_order_app (l1 l2 : list Event) (n : nat) :
  in_order l1 -> in_order l2 ->
  Forall (fun e => phase e <= n) l1 -> Forall (fun e => n <= phase e) l2 ->
  in_order (l1 ++ l2).
Proof.
  unfold in_order. intros S1 S2 F1 F2. induction S1 as [|a l1 S1 IH Ha]; cbn.
  - exact S2.
  - inversion F1 as [|? ? Fa F1']; subst. constructor; [now apply IH|].
    apply Forall_app. split; [exact Ha|].
    eapply Forall_impl; [|exact F2]. unfold phase_le. cbn. intros; lia.
Qed.

(** What a step has to show: its events, in order and within its phases. *)
Lemma keeps_events {A} (lo hi : nat) (c : M A) :
  lo <= hi ->
  (forall st r st', c st = (r, st') ->
     exists evs, trace st' = trace st ++ evs /\ in_order evs
                 /\ Forall (fun e => lo <= phase e <= hi) evs) ->
  keeps lo hi c.
Proof.
  intros Hlh Hc st r st' E [S U]. destruct (Hc st r st' E) as (evs & Et & So & F).
  split.
  - rewrite Et. apply (in_order_app _ _ lo); auto.
    eapply Forall_impl; [|exact F]. cbn; intros; lia.
  - unfold upto. rewrite Et. apply Forall_app. split.
    + eapply Forall_impl; [|exact U]. cbn; intros; lia.
    + eapply Forall_impl; [|exact F]. cbn; intros; lia.
Qed.

Lemma keeps_weaken {A} (lo hi lo' hi' : nat) (c : M A) :
  keeps lo hi c -> lo' <= lo -> hi <= hi' -> keeps lo' hi' c.
Proof.
  intros K Hlo Hhi st r st' E [S U].
  destruct (K st r st' E) as [S' U'].
  - split; [exact S | eapply upto_weaken; eauto].
  - split; [exact S' | eapply upto_weaken; eauto].
Qed.

Lemma keeps_ret {A} (n : nat) (a : A) : keeps n n (ret a).
Proof. intros st r st' E O. unfold ret in E. now injection E as _ <-. Qed.

Lemma keeps_raise {A} (n : nat) (e : Exn) : keeps n n (@raise A e).
Proof. intros st r st' E O. unfold raise in E. now injection E as _ <-. Qed.

Lemma keeps_print (n : nat) (line : string) : keeps n n (print line).
Proof. intros st r st' E O. unfold print, modify in E. now injection E as _ <-. Qed.

Lemma keeps_bind {A B} (lo mid hi : nat) (c : M A) (k : A -> M B) :
  keeps lo mid c -> (forall a, keeps mid hi (k a)) -> mid <= hi ->
  keeps lo hi (bind c k).
Proof.
  intros Kc Kk Hmh st r st' E O. apply bind_inv in E.
  destruct E as [(a & s1 & C & E) | (e & C & _)].
  - exact (Kk a s1 r st' E (Kc st _ s1 C O)).
  - destruct (Kc st _ st' C O) as [S U]. split; [exact S | eapply upto_weaken; eauto].
Qed.

Lemma keeps_try {A} (lo mid hi : nat) (c : M A) (handler : Exn -> option (M A)) :
  keeps lo mid c -> (forall e h, handler e = Some h -> keeps mid hi h) -> mid <= hi ->
  keeps lo hi (try_except c handler).
Proof.
  intros Kc Kh Hmh st r st' E O. apply try_except_inv in E.
  destruct E as [(a & C & _) | (e & s1 & C & [(_ & _ & ->) | (h & Hh & E)])].
  - destruct (Kc st _ st' C O) as [S U]. split; [exact S | eapply upto_weaken; eauto].
  - destruct (Kc st _ s1 C O) as [S U]. split; [exact S | eapply upto_weaken; eauto].
  - exact (Kh e h Hh s1 r st' E (Kc st _ s1 C O)).
Qed.

Ltac events_tac :=
  cbn; rewrite <- ?app_assoc; cbn;
  first
    [ exists []; split; [now rewrite app_nil_r | split; constructor]
    | eexists; split;
      [ reflexivity
      | split; [unfold in_order, phase_le; repeat constructor; cbn; lia
               | repeat constructor; cbn; lia] ] ].

Lemma keeps_check_dependencies (w : World) : keeps 0 0 (check_dependencies w).
Proof.
  apply keeps_events; [lia|]. intros st r st'.
  unfold check_dependencies, missing_dependencies. unfold_m. destruct st as [f tr o].
  ask w; intros E; inversion E; subst; events_tac.
Qed.

Lemma keeps_run (w : World) (c : Cmd) : keeps (phase (Ran c)) (phase (Ran c)) (run w c).
Proof.
  apply keeps_events; [lia|]. intros st r st'. unfold_m. destruct st as [f tr o].
  destruct (cmd_result w c); cbn; intros E; inversion E; subst;
    cbn; rewrite <- ?app_assoc; cbn;
    (eexists; split; [reflexivity|]; split;
     [unfold in_order; repeat constructor | repeat constructor; lia]).
Qed.

Lemma keeps_get_installed_version (n : nat) (p : Path) :
  keeps n n (get_installed_version p).
Proof.
  intros st r st' E O. rewrite get_installed_version_run in E. now injection E as _ <-.
Qed.

Lemma keeps_fetch (w : World) (pl : string) : keeps 2 2 (fetch_latest_info w pl).
Proof.
  apply keeps_events; [lia|]. intros st r st'.
  unfold fetch_latest_info. unfold_m. destruct st as [f tr o].
  destruct (api w) as [t|t|[url|]]; cbn; intros E; inversion E; subst; events_tac.
Qed.

Lemma keeps_exists (n : nat) (w : World) (p : Path) : keeps n n (exists_ w p).
Proof. intros st r st' E O. unfold_m. now injection E as _ <-. Qed.

Lemma keeps_backup (w : World) :
  keeps 3 3 (backup_existing_install w INSTALL_DIR BACKUP_DIR).
Proof.
  apply keeps_events; [lia|]. intros st r st'.
  unfold backup_existing_install. unfold_m. destruct st as [[i b l t s] tr o].
  destruct i as [tree|]; destruct b as [bs|]; ask w;
    intros E; inversion E; subst; events_tac.
Qed.

Lemma keeps_input (w : World) (p : string) : keeps 4 4 (input w p).
Proof.
  apply keeps_events; [lia|]. intros st r st'. unfold_m. destruct st as [f tr o].
  destruct (stdin w); cbn; intros E; inversion E; subst; events_tac.
Qed.

Lemma keeps_download (w : World) (url : string) : keeps 5 5 (download_appimage w url).
Proof.
  apply keeps_events; [lia|]. intros st r st'.
  unfold download_appimage. unfold_m. destruct st as [[i b l t s] tr o].
  destruct (download w); cbn; intros E; inversion E; subst; events_tac.
Qed.

Lemma keeps_install (w : World) (p : Path) :
  keeps 6 8 (extract_and_install w p INSTALL_DIR).
Proof.
  apply keeps_events; [lia|]. intros st r st'.
  unfold extract_and_install. unfold_m. destruct st as [[i b l t s] tr o].
  destruct i as [tree|]; ask w; cbn; intros E; inversion E; subst; events_tac.
Qed.

Lemma keeps_relink (w : World) :
  keeps 9 9 (update_symlinks_and_db w INSTALL_DIR SYMLINK).
Proof.
  apply keeps_events; [lia|]. intros st r st'.
  unfold update_symlinks_and_db. unfold_m. destruct st as [[i b l t s] tr o].
  destruct l as [target|]; ask w; cbn; intros E; inversion E; subst; events_tac.
Qed.

Lemma keeps_cleanup (w : World) (p : Path) :
  keeps 10 10 (except_Exception (unlink w p) (ret tt)).
Proof.
  apply keeps_events; [lia|]. intros st r st'.
  unfold unlink. unfold_m. destruct st as [[i b l t s] tr o].
  destruct (unlink_ok w); destruct p; cbn; intros E; inversion E; subst; events_tac.
Qed.

Lemma keeps_ret_le {A} (lo hi : nat) (a : A) : lo <= hi -> keeps lo hi (ret a).
Proof. intros. eapply keeps_weaken; [apply (keeps_ret lo) | lia | lia]. Qed.

Lemma keeps_exit_le {A} (lo hi : nat) (msg : string) :
  lo <= hi -> keeps lo hi (@sys_exit A msg).
Proof. intros. eapply keeps_weaken; [apply (keeps_raise lo) | lia | lia]. Qed.

Lemma keeps_print_le (lo hi : nat) (line : string) : lo <= hi -> keeps lo hi (print line).
Proof. intros. eapply keeps_weaken; [apply (keeps_print lo) | lia | lia]. Qed.

Ltac wk L := eapply keeps_weaken; [apply L | cbn; lia | cbn; lia].

Lemma in_order_pair (l1 : list Event) (a : Event) (l2 : list Event) (b : Event)
    (l3 : list Event) :
  in_order (l1 ++ a :: l2 ++ b :: l3) -> phase a <= phase b.
Proof.
  unfold in_order. induction l1 as [|x l1 IH]; cbn; intros S.
  - inversion S as [|? ? _ F]; subst. rewrite Forall_forall in F.
    apply F. apply in_or_app. right. now left.
  - inversion S; subst. now apply IH.
Qed.

Section Order.
Context `{PackagingVersion}.

Lemma keeps_main (args : Args) (w : World) : keeps 0 10 (main args w).
Proof.
  unfold main.
  apply (keeps_bind 0 0 10); [apply keeps_check_dependencies | intros deps | lia].
  destruct deps; cbn [negb]; [|apply keeps_exit_le; lia].
  apply (keeps_bind 0 1 10); [| intros _ | lia].
  { apply (keeps_try 0 1 1); [wk (keeps_run w SudoValidate) | | lia].
    intros e h Hh. destruct e; try discriminate Hh. injection Hh as <-.
    apply keeps_exit_le; lia. }
  apply (keeps_bind 1 1 10); [apply keeps_get_installed_version | intros iv | lia].
  apply (keeps_bind 1 2 10); [| intros [url latest] | lia].
  { apply (keeps_try 1 2 2); [wk (keeps_fetch w PLATFORM) | | lia].
    intros e h Hh. destruct (is_Exception e); [|discriminate Hh]. injection Hh as <-.
    apply keeps_exit_le; lia. }
  destruct (already_up_to_date iv latest (force args)); [apply keeps_ret_le; lia|].
  destruct (check args).
  { apply (keeps_bind 2 2 10); [| intros _; apply keeps_ret_le; lia | lia].
    destruct iv as [[|c s]|]; try apply keeps_print.
    destruct (latest =? "Unknown")%string; apply keeps_print. }
  apply (keeps_bind 2 2 10); [apply keeps_exists | intros inst | lia].
  apply (keeps_bind 2 4 10); [| intros _ | lia].
  { destruct (negb (no_backup args) && inst); [|apply keeps_ret_le; lia].
    apply (keeps_bind 2 3 4); [wk (keeps_backup w) | intros ok | lia].
    destruct ok; cbn [negb]; [apply keeps_ret_le; lia|].
    apply (keeps_bind 3 4 4); [wk (keeps_input w BACKUP_PROMPT) | intros answer | lia].
    destruct (negb (PyStr.lower answer =? "y")%string);
      [apply keeps_exit_le | apply keeps_ret_le]; lia. }
  apply (keeps_bind 4 5 10); [wk (keeps_download w url) | intros appimage | lia].
  destruct appimage as [p|]; [|apply keeps_exit_le; lia].
  apply (keeps_bind 5 8 10); [wk (keeps_install w p) | intros ok | lia].
  destruct ok; cbn [negb]; [|apply keeps_exit_le; lia].
  apply (keeps_bind 8 9 10); [wk (keeps_relink w) | intros _ | lia].
  apply (keeps_bind 9 10 10); [wk (keeps_cleanup w p) | intros _ | lia].
  apply (keeps_bind 10 10 10); [apply keeps_print | intros _ | lia].
  apply (keeps_bind 10 10 10); [apply keeps_print | intros _ | lia].
  apply keeps_ret.
Qed.

(** X21.  The interactions of a run come in the order of the pipeline: the
    probes, [sudo -v], the request to the service, the backup, the
    confirmation, the download, the extraction, the permissions of the
    sandbox helper, the removal and the move, the relink, the cleanup.
    In the trace of every run, whatever fails, no event is followed by an
    event of an earlier step: nothing is removed before the extraction,
    nothing is downloaded before the backup. *)
Theorem interactions_in_order (args : Args) (w : World) (f : FS) :
  in_order (trace (snd (main args w (initial f))))
  /\ forall l1 a l2 b l3,
       trace (snd (main args w (initial f))) = l1 ++ a :: l2 ++ b :: l3 ->
       phase a <= phase b.
Proof.
  assert (O : in_order (trace (snd (main args w (initial f))))).
  { destruct (main args w (initial f)) as [r st'] eqn:E.
    refine (proj1 (keeps_main args w (initial f) r st' E _)).
    split; [constructor | apply upto_initial]. }
  split; [exact O|].
  intros l1 a l2 b l3 Et. rewrite Et in O. exact (in_order_pair l1 a l2 b l3 O).
Qed.

End Order.

(** ** Concrete runs for the properties above *)

Lemma missing_dependency_aborts_witness :
  @main ReleaseOnly.release_only args_default world_missing_dep (initial fs_0_42_0)
  = (Raise (SystemExit "Missing required system dependencies"),
     add_events [Ran (Which "sudo"); Ran (Which "update-desktop-database")]
       (initial fs_0_42_0)).
Proof.
  apply (@missing_dependency_aborts ReleaseOnly.release_only).
  - discriminate.
  - discriminate.
  - reflexivity.
Defined.

Lemma sudo_denied_aborts_witness :
  @main ReleaseOnly.release_only args_default world_sudo_denied (initial fs_0_42_0)
  = (Raise (SystemExit "This script requires sudo privileges"),
     add_events [Ran (Which "sudo"); Ran (Which "update-desktop-database");
                 Ran SudoValidate] (initial fs_0_42_0)).
Proof.
  apply (@sudo_denied_aborts ReleaseOnly.release_only); reflexivity.
Defined.


Lemma force_never_up_to_date_witness :
  exists r st',
    @main ReleaseOnly.release_only args_force_check world_ok (initial fs_0_43_1) = (r, st')
    /\ force args_force_check = true
    /\ r <> Val UpToDate.
Proof.
  eassert (E : @main ReleaseOnly.release_only args_force_check world_ok
                 (initial fs_0_43_1) = _) by (vm_compute; reflexivity).
  do 2 eexists. split; [exact E|]. split; [reflexivity|].
  exact (@force_never_up_to_date ReleaseOnly.release_only args_force_check world_ok
           fs_0_43_1 _ _ eq_refl E).
Defined.

Lemma quiet_runs_witness :
  exists r st',
    @main ReleaseOnly.release_only args_check world_ok (initial fs_0_42_0) = (r, st')
    /\ r = Val CheckOnly
    /\ trace st' = prelude_events /\ fs st' = fs_0_42_0.
Proof.
  eassert (E : @main ReleaseOnly.release_only args_check world_ok
                 (initial fs_0_42_0) = _) by (vm_compute; reflexivity).
  do 2 eexists. split; [exact E|]. split; [reflexivity|].
  exact (@quiet_runs ReleaseOnly.release_only args_check world_ok fs_0_42_0 _ _ E
           (or_intror eq_refl)).
Defined.

Lemma world_ok_prelude : prelude_ok world_ok.
Proof. repeat split. eexists; reflexivity. Qed.

Lemma world_no_version_prelude : prelude_ok world_no_version.
Proof. repeat split. eexists; reflexivity. Qed.

Lemma not_installed_run_witness :
  @main ReleaseOnly.release_only args_check world_ok (initial fs_fresh)
  = (Val CheckOnly,
     mkState fs_fresh prelude_events
       [report_not_installed
          (extract_version
             "https://downloads.cursor.com/linux/x64/Cursor-0.43.1-x86_64.AppImage")]).
Proof.
  apply (@not_installed_run ReleaseOnly.release_only args_check world_ok fs_fresh None
           "https://downloads.cursor.com/linux/x64/Cursor-0.43.1-x86_64.AppImage").
  - exact world_ok_prelude.
  - reflexivity.
  - reflexivity.
  - reflexivity.
Defined.

Lemma unknown_latest_run_witness :
  @main ReleaseOnly.release_only args_check world_no_version (initial fs_0_42_0)
  = (Val CheckOnly,
     mkState fs_0_42_0 prelude_events [report_latest_unknown "0.42.0"]).
Proof.
  apply (@unknown_latest_run ReleaseOnly.release_only args_check world_no_version
           fs_0_42_0 "0.42.0"
           "https://downloads.cursor.com/linux/x64/Cursor-latest.AppImage").
  - exact world_no_version_prelude.
  - reflexivity.
  - vm_compute; reflexivity.
  - vm_compute; reflexivity.
  - reflexivity.
Defined.


Lemma accepted_prompt_continues_witness :
  exists r st',
    @main ReleaseOnly.release_only args_default world_backup_accepted (initial fs_0_42_0)
    = (r, st')
    /\ In (Prompt BACKUP_PROMPT) (trace st')
    /\ (r = Val Upgraded
        \/ r = Raise (SystemExit "Download failed")
        \/ r = Raise (SystemExit "Installation failed")).
Proof.
  eassert (E : @main ReleaseOnly.release_only args_default world_backup_accepted
                 (initial fs_0_42_0) = _) by (vm_compute; reflexivity).
  do 2 eexists. split; [exact E|].
  match goal with
  | |- ?asked /\ _ => assert (Hasked : asked)
      by (vm_compute; repeat (first [left; reflexivity | right]))
  end.
  split; [exact Hasked|].
  assert (Hy : PyStr.lower "Y" = "y") by (vm_compute; reflexivity).
  exact (@accepted_prompt_continues ReleaseOnly.release_only args_default
           world_backup_accepted fs_0_42_0 _ _ "Y" E Hasked eq_refl Hy).
Defined.
